(** * Resource / project allocation manager

    A shallow embedding of [Fault_Tolerant_Management_System.cpp]: the classes
    [Resource], [Project] and [ResourceManager], and the command loop of
    [main].

    The C+:+ program shares objects through [std::shared_ptr]: the manager's
    two maps, every project's [resources] vector and every resource's
    [allocatedProject] field hold pointers to the same objects.  The model
    therefore keeps two object stores (one per class) indexed by location,
    and every pointer is a location.  [std::make_shared] allocates at the end
    of the store; nothing is ever freed in the model (an object that no
    pointer reaches cannot be observed).  The log file and the console are
    part of the world: the file as the list of its lines, each console
    stream as the text written to it so far. *)

From Stdlib Require Import ZArith String Ascii.
From stdpp Require Import base option list strings gmap.

(** ** Objects *)

Inductive ResourceState := Idle | InUse | UnderMaintenance.

(** A [std::shared_ptr] to an object is its location in the store of its
    class; [None] stands for [nullptr]. *)
Abbreviation loc := nat.

Module Resource.
Record t := mk {
  getId : string;
  getType : string;
  getState : ResourceState;
  getAllocatedProject : option loc
}.

(** [Resource(id, type)]: a new resource is idle and allocated to no
    project. *)
Definition new (id type : string) : t := mk id type Idle None.

Definition setState (newState : ResourceState) (r : t) : t :=
  mk (getId r) (getType r) newState (getAllocatedProject r).

Definition allocateToProject (project : loc) (r : t) : t :=
  mk (getId r) (getType r) (getState r) (Some project).
End Resource.

Module Project.
Record t := mk {
  getId : string;
  getName : string;
  getResources : list loc
}.

(** [Project(id, name)]: the vector of resources starts empty. *)
Definition new (id name : string) : t := mk id name [].

(** [resources.push_back(resource)] *)
Definition push_back (resource : loc) (p : t) : t :=
  mk (getId p) (getName p) (getResources p ++ [resource]).
End Project.

(** ** The manager and the world around it *)

Record ResourceManager := mkRM {
  resources : gmap string loc;
  projects : gmap string loc
}.

Record World := mkWorld {
  rm : ResourceManager;
  rstore : list Resource.t;      (* every Resource object ever made *)
  pstore : list Project.t;       (* every Project object ever made *)
  logFile : list string;         (* resource_log.txt, one entry per line *)
  cout : string;                 (* text written to std::cout *)
  cerr : string                  (* text written to std::cerr *)
}.

(** ** Outcomes and the command monad

    A call either returns, or throws [std::runtime_error(what)]; in both
    cases the world is the one at that point, so that whatever was mutated
    before a throw stays mutated.  [Undefined] is a dereference of a location
    outside the store: it has no counterpart in the C+:+ program, whose shared
    pointers keep their objects alive, and reachable worlds never produce
    it. *)
Inductive Outcome (A : Type) :=
| Ok (a : A) (w : World)
| Throw (what : string) (w : World)
| Undefined.
Arguments Ok {A} a w.
Arguments Throw {A} what w.
Arguments Undefined {A}.

Definition M (A : Type) := World -> Outcome A.

Definition ret {A} (a : A) : M A := fun w => Ok a w.

Definition bind {A B} (m : M A) (k : A -> M B) : M B :=
  fun w =>
    match m w with
    | Ok a w' => k a w'
    | Throw what w' => Throw what w'
    | Undefined => Undefined
    end.

#[global] Instance M_ret : MRet M := @ret.
#[global] Instance M_bind : MBind M := fun A B k m => bind m k.

Definition throw {A} (what : string) : M A := fun w => Throw what w.

Definition world_of {A} (o : Outcome A) : option World :=
  match o with
  | Ok _ w => Some w
  | Throw _ w => Some w
  | Undefined => None
  end.

(** *** Primitive effects *)

Definition readResource (l : loc) : M Resource.t :=
  fun w => match rstore w !! l with
           | Some r => Ok r w
           | None => Undefined
           end.

Definition readProject (l : loc) : M Project.t :=
  fun w => match pstore w !! l with
           | Some p => Ok p w
           | None => Undefined
           end.

(** Calling a mutating member function through a pointer. *)
Definition updResource (l : loc) (f : Resource.t -> Resource.t) : M unit :=
  fun w => match rstore w !! l with
           | Some r =>
               Ok tt (mkWorld (rm w) (<[l := f r]> (rstore w)) (pstore w)
                              (logFile w) (cout w) (cerr w))
           | None => Undefined
           end.

Definition updProject (l : loc) (f : Project.t -> Project.t) : M unit :=
  fun w => match pstore w !! l with
           | Some p =>
               Ok tt (mkWorld (rm w) (rstore w) (<[l := f p]> (pstore w))
                              (logFile w) (cout w) (cerr w))
           | None => Undefined
           end.

(** [std::make_shared<Resource>(id, type)] *)
Definition make_shared_Resource (id type : string) : M loc :=
  fun w => Ok (length (rstore w))
              (mkWorld (rm w) (rstore w ++ [Resource.new id type]) (pstore w)
                       (logFile w) (cout w) (cerr w)).

(** [std::make_shared<Project>(id, name)] *)
Definition make_shared_Project (id name : string) : M loc :=
  fun w => Ok (length (pstore w))
              (mkWorld (rm w) (rstore w) (pstore w ++ [Project.new id name])
                       (logFile w) (cout w) (cerr w)).

Definition getRM : M ResourceManager := fun w => Ok (rm w) w.

Definition setRM (m : ResourceManager) : M unit :=
  fun w => Ok tt (mkWorld m (rstore w) (pstore w) (logFile w) (cout w) (cerr w)).

(** [std::cout << s] *)
Definition print (s : string) : M unit :=
  fun w => Ok tt (mkWorld (rm w) (rstore w) (pstore w) (logFile w)
                          (cout w +:+ s) (cerr w)).

(** The newline character. *)
Definition nl : string := String (ascii_of_nat 10) EmptyString.


(** ** [Project::addResource]

    [project] is the location of [*this], which is what
    [shared_from_this()] returns. *)
Definition Project_addResource (project resource : loc) : M unit :=
  updProject project (Project.push_back resource);;
  updResource resource (Resource.allocateToProject project).

(** ** [ResourceManager] *)

(** [resources[id] = std::make_shared<Resource>(id, type)]: the entry for
    [id] is created or overwritten. *)
Definition addResource (id type : string) : M unit :=
  l ← make_shared_Resource id type;
  m ← getRM;
  setRM (mkRM (<[id := l]> (resources m)) (projects m)).

Definition getResource (id : string) : M loc :=
  m ← getRM;
  match resources m !! id with
  | Some l => mret l
  | None => throw "Resource not found"
  end.

(** The file is opened for appending and gets [message] and a line end. *)
Definition logTransaction (message : string) : M unit :=
  fun w => Ok tt (mkWorld (rm w) (rstore w) (pstore w)
                          (logFile w ++ [message]) (cout w) (cerr w)).

Definition allocateResourceToProject (resourceId : string) (project : loc)
  : M unit :=
  resource ← getResource resourceId;
  updResource resource (Resource.setState InUse);;
  Project_addResource project resource;;
  p ← readProject project;
  logTransaction ("Resource " +:+ resourceId +:+ " allocated to project "
                  +:+ Project.getName p).

Definition addProject (id name : string) : M unit :=
  l ← make_shared_Project id name;
  m ← getRM;
  setRM (mkRM (resources m) (<[id := l]> (projects m))).

Definition getProject (id : string) : M loc :=
  m ← getRM;
  match projects m !! id with
  | Some l => mret l
  | None => throw "Project not found"
  end.

(** The text that [displayResourceState] writes between ["is "] and the
    final full stop, as a computation in the store (the project's name is
    read through the resource's pointer). *)
Definition printState (r : Resource.t) : M unit :=
  match Resource.getState r with
  | Idle => print "Idle"
  | InUse => print "In Use"
  | UnderMaintenance =>
      print "under maintenance";;
      match Resource.getAllocatedProject r with
      | Some project =>
          p ← readProject project;
          print " and allocated to project ";;
          print (Project.getName p)
      | None => mret tt
      end
  end.

Definition displayResourceState (id : string) : M unit :=
  resource ← getResource id;
  print "Resource ";; print id;; print " is ";;
  r ← readResource resource;
  printState r;;
  print ("." +:+ nl).

Definition maintainResource (id : string) : M unit :=
  resource ← getResource id;
  r ← readResource resource;
  if String.eqb (Resource.getType r) "equipment" then
    updResource resource (Resource.setState UnderMaintenance);;
    logTransaction ("Resource " +:+ id +:+ " is under maintenance.");;
    print ("Resource " +:+ id +:+ " is under maintenance." +:+ nl)
  else
    print ("Resource " +:+ id +:+ " is not equipment and cannot be maintained."
           +:+ nl).

(** ** [main]

    One entry of the menu together with the values read for it.  Reading
    from [std::cin] is not modelled: a command carries what was read. *)
Inductive Command :=
| AddResource (id : string) (typeChoice : Z)
| UseResource (id : string)
| MaintainResource (id : string)
| AddProject (id name : string)
| AllocateResource (id name : string)  (* [name] receives the project id *)
| DisplayResourceState (id : string)
| Exit
| InvalidChoice.                       (* any choice outside 1..7 *)

(** The value of [choice] for a command. *)
Definition choice_of (c : Command) : Z :=
  match c with
  | AddResource _ _ => 1
  | UseResource _ => 2
  | MaintainResource _ => 3
  | AddProject _ _ => 4
  | AllocateResource _ _ => 5
  | DisplayResourceState _ => 6
  | Exit => 7
  | InvalidChoice => 0
  end%Z.

Definition menu : string :=
  "1. Add Resource" +:+ nl +:+ "2. Use Resource" +:+ nl
  +:+ "3. Maintain Resource" +:+ nl +:+ "4. Add Project" +:+ nl
  +:+ "5. Allocate Resource to Project" +:+ nl
  +:+ "6. Display Resource State" +:+ nl +:+ "7. Exit" +:+ nl
  +:+ "Enter your choice: ".

(** The body of [switch (choice)]. *)
Definition menu_case (c : Command) : M unit :=
  match c with
  | AddResource id typeChoice =>
      print "Enter Resource ID to add: ";;
      print "Select Resource Type (1. Worker, 2. Equipment): ";;
      let type := if (typeChoice =? 1)%Z then "worker" else "equipment" in
      addResource id type;;
      print ("Resource " +:+ id +:+ " of type " +:+ type +:+ " added." +:+ nl);;
      logTransaction ("Resource " +:+ id +:+ " of type " +:+ type +:+ " added.")
  | UseResource id =>
      print "Enter Resource ID to use: ";;
      resource ← getResource id;
      updResource resource (Resource.setState InUse);;
      print ("Resource " +:+ id +:+ " is now in use." +:+ nl);;
      logTransaction ("Resource " +:+ id +:+ " is now in use.")
  | MaintainResource id =>
      print "Enter Resource ID to maintain: ";;
      maintainResource id
  | AddProject id name =>
      print "Enter Project ID to add: ";;
      print "Enter Project Name: ";;
      addProject id name;;
      print ("Project " +:+ id +:+ " named " +:+ name +:+ " added." +:+ nl);;
      logTransaction ("Project " +:+ id +:+ " named " +:+ name +:+ " added.")
  | AllocateResource id name =>
      print "Enter Resource ID to allocate: ";;
      print "Enter Project ID to allocate to: ";;
      project ← getProject name;
      allocateResourceToProject id project;;
      print ("Resource " +:+ id +:+ " allocated to project " +:+ name +:+ "."
             +:+ nl)
  | DisplayResourceState id =>
      print "Enter Resource ID to display state: ";;
      displayResourceState id
  | Exit => print ("Exiting..." +:+ nl)
  | InvalidChoice => print ("Invalid choice. Please try again." +:+ nl)
  end.

(** The [do ... while (choice != 7)] loop, run on the commands entered so
    far.  A throw leaves the loop, and so does the exit entry; these are the
    only ways the loop of the program ends.  When the list is used up
    without either, the result [Ok] stands for the program waiting at the
    menu for the next entry: it has not returned. *)
Fixpoint main_loop (input : list Command) : M unit :=
  match input with
  | [] => mret tt
  | c :: rest =>
      print menu;;
      menu_case c;;
      if (choice_of c =? 7)%Z then mret tt else main_loop rest
  end.

(** [try { ... } catch (const std::exception& e)]: the handler reports
    [e.what()] on [std::cerr], and [main] returns. *)
Definition main (input : list Command) : M unit :=
  fun w =>
    match main_loop input w with
    | Throw what w' =>
        Ok tt (mkWorld (rm w') (rstore w') (pstore w') (logFile w') (cout w')
                       (cerr w' +:+ "Error: " +:+ what +:+ nl))
    | o => o
    end.

(** The world in which [main] starts: an empty manager, no objects, and the
    log file with whatever earlier runs left in it. *)
Definition initial (log0 : list string) : World :=
  mkWorld (mkRM ∅ ∅) [] [] log0 "" "".

(** ** Observations *)

(** The object registered under an id. *)
Definition resourceAt (w : World) (id : string) : option Resource.t :=
  resources (rm w) !! id ≫= fun l => rstore w !! l.

Definition projectAt (w : World) (id : string) : option Project.t :=
  projects (rm w) !! id ≫= fun l => pstore w !! l.

(** The state that [displayResourceState id] would report. *)
Definition stateOf (w : World) (id : string) : option ResourceState :=
  Resource.getState <$> resourceAt w id.

(** ** Running commands

    [exec c w] is the world after the [switch] body for [c]; a throw keeps
    the world it was thrown in.  [run] iterates it.  In the program a throw
    ends [main]; [run] goes on with the next command, so the worlds it
    reaches include all those [main] can be in. *)
Definition exec (c : Command) (w : World) : World :=
  match menu_case c w with
  | Ok _ w' => w'
  | Throw _ w' => w'
  | Undefined => w
  end.

Definition run (input : list Command) (w : World) : World :=
  foldl (fun w c => exec c w) w input.

(** Whether some command of [input] adds a resource under [id]. *)
Definition registers (id : string) (input : list Command) : bool :=
  existsb (fun c => match c with
                    | AddResource id' _ => String.eqb id' id
                    | _ => false
                    end) input.

(** ** Steps and predicates on worlds *)

(** *** The shape of a step

    Whatever the command, the manager and the two stores change in one of
    five ways.  The log and the console are left out: no invariant below
    depends on them. *)
Inductive core_step (c : Command) (w w' : World) : Prop :=
| step_none :
    rm w' = rm w -> rstore w' = rstore w -> pstore w' = pstore w ->
    core_step c w w'
| step_addResource (id : string) (typeChoice : Z) (type : string) :
    c = AddResource id typeChoice ->
    rm w' = mkRM (<[id := length (rstore w)]> (resources (rm w)))
                 (projects (rm w)) ->
    rstore w' = rstore w ++ [Resource.new id type] ->
    pstore w' = pstore w ->
    core_step c w w'
| step_addProject (id name : string) :
    c = AddProject id name ->
    rm w' = mkRM (resources (rm w))
                 (<[id := length (pstore w)]> (projects (rm w))) ->
    rstore w' = rstore w ->
    pstore w' = pstore w ++ [Project.new id name] ->
    core_step c w w'
| step_setState (id : string) (l : loc) (r : Resource.t)
                (st : ResourceState) :
    c = UseResource id \/ c = MaintainResource id ->
    resources (rm w) !! id = Some l ->
    rstore w !! l = Some r ->
    st <> Idle ->
    rm w' = rm w ->
    rstore w' = <[l := Resource.setState st r]> (rstore w) ->
    pstore w' = pstore w ->
    core_step c w w'
| step_allocate (id name : string) (rl pl : loc) (r : Resource.t)
                (p : Project.t) :
    c = AllocateResource id name ->
    resources (rm w) !! id = Some rl ->
    projects (rm w) !! name = Some pl ->
    rstore w !! rl = Some r ->
    pstore w !! pl = Some p ->
    rm w' = rm w ->
    rstore w' = <[rl := Resource.allocateToProject pl
                          (Resource.setState InUse r)]> (rstore w) ->
    pstore w' = <[pl := Project.push_back rl p]> (pstore w) ->
    core_step c w w'.

(** Some command takes [w] to [w']. *)
Definition some_step (w w' : World) : Prop := exists c, core_step c w w'.

(** A resource object that is idle points to no project. *)
Definition idle_unallocated (w : World) : Prop :=
  forall (l : loc) (r : Resource.t),
    rstore w !! l = Some r ->
    Resource.getState r = Idle -> Resource.getAllocatedProject r = None.





(** The command looks up a resource id or a project id that the manager
    does not have. *)
Definition unknown_id (c : Command) (w : World) : Prop :=
  match c with
  | UseResource id | MaintainResource id | DisplayResourceState id =>
      resources (rm w) !! id = None
  | AllocateResource id name =>
      resources (rm w) !! id = None \/ projects (rm w) !! name = None
  | _ => False
  end.

(** Every pointer the program follows leads to an object. *)
Definition valid_pointers (w : World) : Prop :=
  (forall id l, resources (rm w) !! id = Some l -> l < length (rstore w))
  /\ (forall id l, projects (rm w) !! id = Some l -> l < length (pstore w))
  /\ (forall l r q, rstore w !! l = Some r ->
                    Resource.getAllocatedProject r = Some q ->
                    q < length (pstore w)).

(** No command of the input is the exit entry. *)
Definition exit_free (input : list Command) : bool :=
  forallb (fun c => negb (choice_of c =? 7)%Z) input.

(** Two worlds that differ at most in what is on the console. *)
Definition same_core (w w' : World) : Prop :=
  rm w = rm w' /\ rstore w = rstore w' /\ pstore w = pstore w'
  /\ logFile w = logFile w'.

(** ** Basic facts *)

Lemma string_app_assoc (a b c : string) : (a +:+ b) +:+ c = a +:+ (b +:+ c).
Proof.
  induction a as [|x a IH]; [reflexivity|].
  change (String x ((a +:+ b) +:+ c) = String x (a +:+ (b +:+ c))).
  by rewrite IH.
Qed.

Lemma lookup_snoc_Some {A} (l : list A) (x y : A) (i : nat) :
  (l ++ [x]) !! i = Some y -> l !! i = Some y \/ (i = length l /\ y = x).
Proof.
  intros H. apply lookup_app_Some in H as [H|[Hle H]]; [by left|right].
  destruct (i - length l) as [|n] eqn:E; simpl in H; [|done].
  split; [lia|congruence].
Qed.

Lemma lookup_insert_Some_cases {A} (l : list A) (i j : nat) (x y : A) :
  <[i := x]> l !! j = Some y ->
  (j = i /\ y = x) \/ (j <> i /\ l !! j = Some y).
Proof.
  intros H. destruct (decide (j = i)) as [->|Hne].
  - left. split; [done|].
    rewrite list_lookup_insert_eq in H; [congruence|].
    rewrite <- (length_insert l i x). by eapply lookup_lt_Some.
  - right. by rewrite list_lookup_insert_ne in H.
Qed.

(** Unfolding of the monad and of the primitive effects. *)
Ltac unfold_M :=
  unfold mbind, M_bind, mret, M_ret, bind, ret, throw, getRM, setRM, print,
    logTransaction, make_shared_Resource, make_shared_Project, readResource,
    readProject, updResource, updProject in *.

Ltac unfold_ops :=
  unfold menu_case, displayResourceState, printState, maintainResource,
    allocateResourceToProject, Project_addResource, addResource, addProject,
    getResource, getProject in *;
  unfold_M.

(** ** Steps of the program *)

Lemma addResource_eq (id type : string) (w : World) :
  addResource id type w =
  Ok tt (mkWorld (mkRM (<[id := length (rstore w)]> (resources (rm w)))
                       (projects (rm w)))
                 (rstore w ++ [Resource.new id type]) (pstore w)
                 (logFile w) (cout w) (cerr w)).
Proof. reflexivity. Qed.

Lemma addProject_eq (id name : string) (w : World) :
  addProject id name w =
  Ok tt (mkWorld (mkRM (resources (rm w))
                       (<[id := length (pstore w)]> (projects (rm w))))
                 (rstore w) (pstore w ++ [Project.new id name])
                 (logFile w) (cout w) (cerr w)).
Proof. reflexivity. Qed.

Lemma exec_core_step (c : Command) (w : World) : core_step c w (exec c w).
Proof.
  destruct c as [id tc|id|id|id name|id name|id| |]; unfold exec.
  - by eapply step_addResource.
  - unfold_ops; simpl.
    destruct (resources (rm w) !! id) as [l|] eqn:Hl; simpl;
      [|by apply step_none].
    destruct (rstore w !! l) as [r|] eqn:Hr; simpl; [|by apply step_none].
    eapply (step_setState _ _ _ id l r InUse); eauto.
  - unfold_ops; simpl.
    destruct (resources (rm w) !! id) as [l|] eqn:Hl; simpl;
      [|by apply step_none].
    destruct (rstore w !! l) as [r|] eqn:Hr; simpl; [|by apply step_none].
    destruct (String.eqb (Resource.getType r) "equipment"); simpl.
    + rewrite Hr; simpl.
      eapply (step_setState _ _ _ id l r UnderMaintenance); eauto.
    + by apply step_none.
  - by eapply step_addProject.
  - unfold_ops; simpl.
    destruct (projects (rm w) !! name) as [pl|] eqn:Hpl; simpl;
      [|by apply step_none].
    destruct (resources (rm w) !! id) as [rl|] eqn:Hrl; simpl;
      [|by apply step_none].
    destruct (rstore w !! rl) as [r|] eqn:Hr; simpl; [|by apply step_none].
    destruct (pstore w !! pl) as [p|] eqn:Hp; simpl; [|by apply step_none].
    rewrite list_lookup_insert_eq by (by eapply lookup_lt_Some).
    simpl.
    rewrite list_lookup_insert_eq by (by eapply lookup_lt_Some).
    simpl. rewrite list_insert_insert_eq.
    by eapply (step_allocate _ _ _ id name rl pl r p).
  - unfold_ops; simpl.
    destruct (resources (rm w) !! id) as [l|] eqn:Hl; simpl;
      [|by apply step_none].
    destruct (rstore w !! l) as [r|] eqn:Hr; simpl; [|by apply step_none].
    destruct (Resource.getState r); simpl; try by apply step_none.
    destruct (Resource.getAllocatedProject r) as [q|]; simpl;
      [|by apply step_none].
    destruct (pstore w !! q); simpl; by apply step_none.
  - by apply step_none.
  - by apply step_none.
Qed.

Lemma run_snoc (input : list Command) (c : Command) (w : World) :
  run (input ++ [c]) w = exec c (run input w).
Proof. unfold run. by rewrite foldl_app. Qed.

Lemma run_steps (input : list Command) (w : World) :
  rtc some_step w (run input w).
Proof.
  induction input as [|c input IH] using rev_ind; [by apply rtc_refl|].
  rewrite run_snoc. eapply rtc_r; [exact IH|].
  exists c. apply exec_core_step.
Qed.

(** *** Invariants of all reachable worlds

    A property that every step preserves holds along [run] and [main]. *)
Section Invariant.
Variable I : World -> Prop.
Hypothesis I_step : forall c w w', core_step c w w' -> I w -> I w'.

Lemma invariant_steps (w w' : World) : rtc some_step w w' -> I w -> I w'.
Proof. induction 1 as [|w w1 w2 [c Hc] _ IH]; eauto. Qed.

Lemma invariant_run (input : list Command) (w : World) :
  I w -> I (run input w).
Proof. apply invariant_steps, run_steps. Qed.
End Invariant.

(** [main] only moves through worlds that [some_step] connects. *)
Lemma main_loop_steps (input : list Command) (w w' : World) :
  world_of (main_loop input w) = Some w' -> rtc some_step w w'.
Proof.
  revert w. induction input as [|c rest IH]; intros w; simpl.
  - intros [= <-]. apply rtc_refl.
  - unfold mbind, M_bind, bind at 1. simpl.
    set (w1 := mkWorld _ _ _ _ _ _).
    assert (some_step w w1) as H1 by (exists c; by apply step_none).
    unfold bind at 1.
    pose proof (exec_core_step c w1) as H2. unfold exec in H2.
    destruct (menu_case c w1) as [[] w2|what w2|] eqn:E; simpl.
    + destruct (choice_of c =? 7)%Z.
      * intros [= <-]. eapply rtc_l; [exact H1|]. apply rtc_once. by exists c.
      * intros H. eapply rtc_l; [exact H1|]. eapply rtc_l; [by exists c|].
        by apply IH.
    + intros [= <-]. eapply rtc_l; [exact H1|]. apply rtc_once. by exists c.
    + discriminate.
Qed.

Lemma main_steps (input : list Command) (w w' : World) :
  world_of (main input w) = Some w' -> rtc some_step w w'.
Proof.
  unfold main. pose proof (main_loop_steps input w) as H.
  destruct (main_loop input w) as [[] w1|what w1|]; simpl in *.
  - exact (H w').
  - intros [= <-]. eapply rtc_r; [by apply H|].
    exists Exit. by apply step_none.
  - discriminate.
Qed.

(** ** Idle resources are unallocated (C9) *)

Lemma idle_unallocated_step (c : Command) (w w' : World) :
  core_step c w w' -> idle_unallocated w -> idle_unallocated w'.
Proof.
  intros Hstep Hinv l r Hl Hidle.
  destruct Hstep as [Hrm Hrs Hps|id tc type _ Hrm Hrs Hps|id name _ Hrm Hrs Hps
                    |id l0 r0 st _ Hid Hr0 Hst Hrm Hrs Hps
                    |id name rl pl r0 p _ Hid Hname Hr0 Hp Hrm Hrs Hps];
    rewrite Hrs in Hl.
  - eauto.
  - apply lookup_snoc_Some in Hl as [Hl|[_ ->]]; eauto.
  - eauto.
  - apply lookup_insert_Some_cases in Hl as [[-> ->]|[_ Hl]]; eauto.
    simpl in Hidle. done.
  - apply lookup_insert_Some_cases in Hl as [[-> ->]|[_ Hl]]; eauto.
    simpl in Hidle. done.
Qed.

Lemma idle_unallocated_initial (log0 : list string) :
  idle_unallocated (initial log0).
Proof. intros l r Hl. by destruct l. Qed.

Lemma idle_unallocated_exec (c : Command) (w : World) :
  idle_unallocated w -> idle_unallocated (exec c w).
Proof. apply (idle_unallocated_step c), exec_core_step. Qed.

(** C9: in every world reached from an empty manager by a sequence of
    commands (add resource, use, maintain, add project, allocate, display),
    a resource object whose state is [Idle] has a null [allocatedProject];
    and each of these commands, run in any world where this holds, leaves a
    world where it holds. *)
Theorem idle_resource_has_no_project (log0 : list string)
    (input : list Command) (c : Command) :
  idle_unallocated (run input (initial log0))
  /\ (forall w, idle_unallocated w -> idle_unallocated (exec c w)).
Proof.
  split; [|apply idle_unallocated_exec].
  apply (invariant_run idle_unallocated idle_unallocated_step).
  apply idle_unallocated_initial.
Qed.

Lemma idle_resource_has_no_project_witness :
  idle_unallocated
    (exec (AllocateResource "R1" "P1")
          (run [AddProject "P1" "Alpha"; AddResource "R1" 2] (initial []))).
Proof.
  apply (proj2 (idle_resource_has_no_project [] [] (AllocateResource "R1" "P1"))).
  apply (proj1 (idle_resource_has_no_project []
                  [AddProject "P1" "Alpha"; AddResource "R1" 2] Exit)).
Defined.

(** The same for the worlds [main] itself ends in. *)
Lemma idle_unallocated_main (log0 : list string) (input : list Command)
    (w : World) :
  world_of (main input (initial log0)) = Some w -> idle_unallocated w.
Proof.
  intros H. apply main_steps in H.
  eapply (invariant_steps idle_unallocated idle_unallocated_step); eauto.
  apply idle_unallocated_initial.
Qed.

(** ** What each operation does to the world *)

Lemma getResource_found (w : World) (id : string) (l : loc) :
  resources (rm w) !! id = Some l -> getResource id w = Ok l w.
Proof. intros H. unfold_ops. simpl. by rewrite H. Qed.

Lemma getResource_missing (w : World) (id : string) :
  resources (rm w) !! id = None ->
  getResource id w = Throw "Resource not found" w.
Proof. intros H. unfold_ops. simpl. by rewrite H. Qed.

Lemma getProject_found (w : World) (id : string) (l : loc) :
  projects (rm w) !! id = Some l -> getProject id w = Ok l w.
Proof. intros H. unfold_ops. simpl. by rewrite H. Qed.

Lemma getProject_missing (w : World) (id : string) :
  projects (rm w) !! id = None ->
  getProject id w = Throw "Project not found" w.
Proof. intros H. unfold_ops. simpl. by rewrite H. Qed.

Lemma maintainResource_equipment (w : World) (id : string) (l : loc)
    (r : Resource.t) :
  resources (rm w) !! id = Some l ->
  rstore w !! l = Some r ->
  Resource.getType r = "equipment" ->
  maintainResource id w =
  Ok tt (mkWorld (rm w)
           (<[l := Resource.setState UnderMaintenance r]> (rstore w))
           (pstore w)
           (logFile w ++ ["Resource " +:+ id +:+ " is under maintenance."])
           (cout w +:+ "Resource " +:+ id +:+ " is under maintenance." +:+ nl)
           (cerr w)).
Proof.
  intros Hl Hr Ht. unfold_ops. simpl. rewrite Hl. simpl. rewrite Hr, Ht.
  simpl. by rewrite Hr.
Qed.

Lemma maintainResource_not_equipment (w : World) (id : string) (l : loc)
    (r : Resource.t) :
  resources (rm w) !! id = Some l ->
  rstore w !! l = Some r ->
  Resource.getType r <> "equipment" ->
  maintainResource id w =
  Ok tt (mkWorld (rm w) (rstore w) (pstore w) (logFile w)
           (cout w +:+ "Resource " +:+ id
            +:+ " is not equipment and cannot be maintained." +:+ nl)
           (cerr w)).
Proof.
  intros Hl Hr Ht. unfold_ops. simpl. rewrite Hl. simpl. rewrite Hr.
  apply String.eqb_neq in Ht. by rewrite Ht.
Qed.

Lemma useResource_eq (w : World) (id : string) (l : loc) (r : Resource.t) :
  resources (rm w) !! id = Some l ->
  rstore w !! l = Some r ->
  menu_case (UseResource id) w =
  Ok tt (mkWorld (rm w) (<[l := Resource.setState InUse r]> (rstore w))
           (pstore w)
           (logFile w ++ ["Resource " +:+ id +:+ " is now in use."])
           ((cout w +:+ "Enter Resource ID to use: ")
            +:+ "Resource " +:+ id +:+ " is now in use." +:+ nl)
           (cerr w)).
Proof.
  intros Hl Hr. unfold_ops. simpl. rewrite Hl. simpl. by rewrite Hr.
Qed.

Lemma allocateResourceToProject_eq (w : World) (id : string) (rl pl : loc)
    (r : Resource.t) (p : Project.t) :
  resources (rm w) !! id = Some rl ->
  rstore w !! rl = Some r ->
  pstore w !! pl = Some p ->
  allocateResourceToProject id pl w =
  Ok tt (mkWorld (rm w)
           (<[rl := Resource.allocateToProject pl
                      (Resource.setState InUse r)]> (rstore w))
           (<[pl := Project.push_back rl p]> (pstore w))
           (logFile w ++ ["Resource " +:+ id +:+ " allocated to project "
                          +:+ Project.getName p])
           (cout w) (cerr w)).
Proof.
  intros Hrl Hr Hp. unfold_ops. simpl. rewrite Hrl. simpl. rewrite Hr.
  simpl. rewrite Hp. simpl.
  rewrite list_lookup_insert_eq by (by eapply lookup_lt_Some). simpl.
  rewrite list_lookup_insert_eq by (by eapply lookup_lt_Some). simpl.
  by rewrite list_insert_insert_eq.
Qed.

(** ** Registration (C1, C5) *)

(** C1 does not hold as stated.  After [Add Resource R1] (equipment) and
    [Use Resource R1], the id ["R1"] is present, yet adding it again returns
    normally instead of failing, and the manager's mapping changes: ["R1"]
    now leads to another object, which is idle.  Likewise for a project
    id. *)
Lemma duplicate_registration_succeeds :
  exists w w1 w2 w3,
    main_loop [AddResource "R1" 2; UseResource "R1"; AddProject "P1" "Alpha"]
              (initial []) = Ok tt w
    /\ resources (rm w) !! "R1" = Some 0
    /\ stateOf w "R1" = Some InUse
    /\ addResource "R1" "equipment" w = Ok tt w1
    /\ resources (rm w1) !! "R1" = Some 1
    /\ stateOf w1 "R1" = Some Idle
    /\ menu_case (AddResource "R1" 2) w = Ok tt w2
    /\ resources (rm w2) !! "R1" = Some 1
    /\ projects (rm w) !! "P1" = Some 0
    /\ addProject "P1" "Alpha" w = Ok tt w3
    /\ projects (rm w3) !! "P1" = Some 1.
Proof.
  do 4 eexists.
  do 10 (split; [vm_compute; reflexivity|]).
  vm_compute; reflexivity.
Qed.

(** C1, amended: registering never fails, whether or not the id is present.
    [addResource] makes a new idle, unallocated resource object and maps the
    id to it, replacing any earlier entry for that id; every existing object
    stays in the store as it was, the entries of other ids and the project
    map are unchanged.  [addProject] does the same with a new project whose
    list is empty. *)
Theorem registration_overwrites (w : World) (id a : string) :
  (exists w',
      addResource id a w = Ok tt w'
      /\ resources (rm w') = <[id := length (rstore w)]> (resources (rm w))
      /\ rstore w' = rstore w ++ [Resource.new id a]
      /\ resourceAt w' id = Some (Resource.new id a)
      /\ projects (rm w') = projects (rm w)
      /\ pstore w' = pstore w
      /\ logFile w' = logFile w)
  /\ (exists w',
      addProject id a w = Ok tt w'
      /\ projects (rm w') = <[id := length (pstore w)]> (projects (rm w))
      /\ pstore w' = pstore w ++ [Project.new id a]
      /\ projectAt w' id = Some (Project.new id a)
      /\ resources (rm w') = resources (rm w)
      /\ rstore w' = rstore w
      /\ logFile w' = logFile w).
Proof.
  split; eexists; (split; [reflexivity|]); simpl; repeat split.
  - unfold resourceAt. simpl. rewrite lookup_insert_eq. simpl.
    by rewrite lookup_app_r, Nat.sub_diag.
  - unfold projectAt. simpl. rewrite lookup_insert_eq. simpl.
    by rewrite lookup_app_r, Nat.sub_diag.
Qed.

(** C5: whatever the world, [addResource id type] followed at once by
    [displayResourceState id] reports the resource as ["Idle"], with no
    project clause; both at the level of the manager's methods and through
    the menu, for either type choice. *)
Theorem add_then_display_is_Idle (w : World) (id type : string)
    (typeChoice : Z) :
  (exists w1 w2,
      addResource id type w = Ok tt w1
      /\ displayResourceState id w1 = Ok tt w2
      /\ cout w2 = cout w1 +:+ "Resource " +:+ id +:+ " is Idle." +:+ nl)
  /\ (exists w1 w2,
      menu_case (AddResource id typeChoice) w = Ok tt w1
      /\ menu_case (DisplayResourceState id) w1 = Ok tt w2
      /\ cout w2 = cout w1 +:+ "Enter Resource ID to display state: "
                   +:+ "Resource " +:+ id +:+ " is Idle." +:+ nl).
Proof.
  split.
  - do 2 eexists. split; [reflexivity|].
    unfold_ops. simpl. rewrite lookup_insert_eq. simpl.
    rewrite lookup_app_r, Nat.sub_diag by done. simpl.
    split; [reflexivity|]. simpl. by rewrite !string_app_assoc.
  - do 2 eexists. unfold_ops. simpl. split; [reflexivity|].
    simpl. rewrite lookup_insert_eq. simpl.
    rewrite lookup_app_r, Nat.sub_diag by done. simpl.
    split; [reflexivity|]. simpl. by rewrite !string_app_assoc.
Qed.

(** ** Maintenance (C2) *)

(** C2: for a resource registered under [id], [maintainResource id] on an
    equipment resource sets its state to [UnderMaintenance] and appends
    exactly the record ["Resource {id} is under maintenance."] to the log;
    on a worker it leaves the resource store and the log as they were and
    only tells the console that the resource cannot be maintained. *)
Theorem maintain_by_type (w : World) (id : string) (l : loc)
    (r : Resource.t) :
  resources (rm w) !! id = Some l ->
  rstore w !! l = Some r ->
  (Resource.getType r = "equipment" ->
   exists w',
     maintainResource id w = Ok tt w'
     /\ stateOf w' id = Some UnderMaintenance
     /\ rstore w' = <[l := Resource.setState UnderMaintenance r]> (rstore w)
     /\ logFile w' =
          logFile w ++ ["Resource " +:+ id +:+ " is under maintenance."])
  /\ (Resource.getType r = "worker" ->
      exists w',
        maintainResource id w = Ok tt w'
        /\ stateOf w' id = Some (Resource.getState r)
        /\ rstore w' = rstore w
        /\ logFile w' = logFile w
        /\ cout w' = cout w +:+ "Resource " +:+ id
                     +:+ " is not equipment and cannot be maintained." +:+ nl).
Proof.
  intros Hl Hr. split; intros Ht.
  - eexists. split; [by eapply maintainResource_equipment|].
    simpl. repeat split.
    unfold stateOf, resourceAt. simpl. rewrite Hl. simpl.
    rewrite list_lookup_insert_eq by (by eapply lookup_lt_Some). done.
  - eexists. split.
    + eapply maintainResource_not_equipment; eauto. by rewrite Ht.
    + simpl. repeat split.
      unfold stateOf, resourceAt. simpl. rewrite Hl. simpl. by rewrite Hr.
Qed.

Lemma maintain_by_type_witness :
  (exists w',
      maintainResource "R1" (run [AddResource "R1" 2] (initial [])) = Ok tt w'
      /\ stateOf w' "R1" = Some UnderMaintenance
      /\ logFile w' = ["Resource R1 of type equipment added.";
                       "Resource R1 is under maintenance."])
  /\ (exists w',
      maintainResource "R2"
        (run [AddResource "R2" 1; UseResource "R2"] (initial [])) = Ok tt w'
      /\ stateOf w' "R2" = Some InUse
      /\ logFile w' = ["Resource R2 of type worker added.";
                       "Resource R2 is now in use."]).
Proof.
  split.
  - destruct (maintain_by_type (run [AddResource "R1" 2] (initial [])) "R1" 0
                (Resource.mk "R1" "equipment" Idle None))
      as [H _]; [vm_compute; reflexivity|vm_compute; reflexivity|].
    destruct (H eq_refl) as (w' & H1 & H2 & _ & H3).
    exists w'. split; [exact H1|]. split; [exact H2|]. exact H3.
  - destruct (maintain_by_type
                (run [AddResource "R2" 1; UseResource "R2"] (initial []))
                "R2" 0 (Resource.mk "R2" "worker" InUse None))
      as [_ H]; [vm_compute; reflexivity|vm_compute; reflexivity|].
    destruct (H eq_refl) as (w' & H1 & H2 & _ & H3 & _).
    exists w'. split; [exact H1|]. split; [exact H2|]. exact H3.
Defined.

(** ** Allocation (C3) *)

(** C3: for a registered resource and a registered project,
    [allocateResourceToProject] returns normally; afterwards the resource is
    [InUse] and its [allocatedProject] is the project, the project's list is
    the old list with the resource appended (one more occurrence than
    before), and the log has one more record, ["Resource {id} allocated to
    project {name}"].  A second call appends the resource once more. *)
Theorem allocate_effect (w : World) (id name : string) (rl pl : loc)
    (r : Resource.t) (p : Project.t) :
  resources (rm w) !! id = Some rl ->
  projects (rm w) !! name = Some pl ->
  rstore w !! rl = Some r ->
  pstore w !! pl = Some p ->
  exists w' r' p',
    getProject name w = Ok pl w
    /\ allocateResourceToProject id pl w = Ok tt w'
    /\ rm w' = rm w
    /\ rstore w' !! rl = Some r'
    /\ Resource.getState r' = InUse
    /\ Resource.getAllocatedProject r' = Some pl
    /\ pstore w' !! pl = Some p'
    /\ Project.getResources p' = Project.getResources p ++ [rl]
    /\ count_occ Nat.eq_dec (Project.getResources p') rl
       = S (count_occ Nat.eq_dec (Project.getResources p) rl)
    /\ logFile w' = logFile w ++ ["Resource " +:+ id +:+ " allocated to project "
                                  +:+ Project.getName p]
    /\ exists w'' p'',
        allocateResourceToProject id pl w' = Ok tt w''
        /\ pstore w'' !! pl = Some p''
        /\ Project.getResources p'' = Project.getResources p ++ [rl; rl]
        /\ logFile w'' = logFile w' ++ ["Resource " +:+ id
                                        +:+ " allocated to project "
                                        +:+ Project.getName p].
Proof.
  intros Hrl Hpl Hr Hp.
  pose proof (lookup_lt_Some _ _ _ Hr) as Hlr.
  pose proof (lookup_lt_Some _ _ _ Hp) as Hlp.
  do 3 eexists.
  split; [by apply getProject_found|].
  split; [by eapply allocateResourceToProject_eq|]. simpl.
  split; [done|].
  split; [by apply list_lookup_insert_eq|].
  split; [done|]. split; [done|].
  split; [by apply list_lookup_insert_eq|].
  split; [done|].
  split.
  { simpl. rewrite count_occ_app. simpl.
    destruct (Nat.eq_dec rl rl); [lia|done]. }
  split; [done|].
  do 2 eexists.
  split.
  { eapply allocateResourceToProject_eq; simpl; eauto.
    - by apply list_lookup_insert_eq.
    - by apply list_lookup_insert_eq. }
  simpl. split.
  { apply list_lookup_insert_eq. by rewrite length_insert. }
  split; [|done]. simpl. by rewrite <- app_assoc.
Qed.

Lemma allocate_effect_witness :
  exists w' r' p',
    allocateResourceToProject "R2" 0
      (run [AddProject "P1" "Alpha"; AddResource "R2" 1] (initial []))
    = Ok tt w'
    /\ rstore w' !! 0 = Some r'
    /\ Resource.getState r' = InUse
    /\ pstore w' !! 0 = Some p'
    /\ Project.getResources p' = [0]
    /\ logFile w' = ["Project P1 named Alpha added.";
                     "Resource R2 of type worker added.";
                     "Resource R2 allocated to project Alpha"].
Proof.
  destruct (allocate_effect
              (run [AddProject "P1" "Alpha"; AddResource "R2" 1] (initial []))
              "R2" "P1" 0 0 (Resource.mk "R2" "worker" Idle None)
              (Project.mk "P1" "Alpha" []))
    as (w' & r' & p' & _ & H1 & _ & H2 & H3 & _ & H4 & H5 & _ & H6 & _);
    try (vm_compute; reflexivity).
  exists w', r', p'. repeat (split; [assumption|]). exact H6.
Defined.

(** ** Display (C6) *)

(** C6: for a resource registered under [id], [displayResourceState id]
    changes nothing but the console, to which it adds one line
    ["Resource {id} is {d}."], where [d] is ["Idle"], ["In Use"] or
    ["under maintenance"] according to the state, followed by
    [" and allocated to project {name}"] exactly when the state is
    [UnderMaintenance] and [allocatedProject] is not null; an [InUse]
    resource never gets the clause, allocated or not. *)
Theorem display_describes_state (w : World) (id : string) (l : loc)
    (r : Resource.t) :
  resources (rm w) !! id = Some l ->
  rstore w !! l = Some r ->
  (forall q, Resource.getAllocatedProject r = Some q ->
             is_Some (pstore w !! q)) ->
  exists d w',
    displayResourceState id w = Ok tt w'
    /\ rm w' = rm w /\ rstore w' = rstore w /\ pstore w' = pstore w
    /\ logFile w' = logFile w /\ cerr w' = cerr w
    /\ cout w' = cout w +:+ "Resource " +:+ id +:+ " is " +:+ d +:+ "." +:+ nl
    /\ (Resource.getState r = Idle -> d = "Idle")
    /\ (Resource.getState r = InUse -> d = "In Use")
    /\ (Resource.getState r = UnderMaintenance ->
        Resource.getAllocatedProject r = None -> d = "under maintenance")
    /\ (Resource.getState r = UnderMaintenance ->
        forall q p,
          Resource.getAllocatedProject r = Some q ->
          pstore w !! q = Some p ->
          d = "under maintenance" +:+ " and allocated to project "
              +:+ Project.getName p).
Proof.
  intros Hl Hr Hq.
  unfold displayResourceState, printState, getResource. unfold_M. simpl.
  rewrite Hl. simpl. rewrite Hr.
  destruct r as [rid rty st alloc]; simpl in *.
  destruct st; simpl.
  - exists "Idle". eexists. split; [reflexivity|]. simpl.
    rewrite !string_app_assoc. by repeat split.
  - exists "In Use". eexists. split; [reflexivity|]. simpl.
    rewrite !string_app_assoc. by repeat split.
  - destruct alloc as [q|]; simpl.
    + destruct (Hq q eq_refl) as [p Hp]. rewrite Hp. simpl.
      exists ("under maintenance" +:+ " and allocated to project "
              +:+ Project.getName p).
      eexists. split; [reflexivity|]. simpl.
      rewrite !string_app_assoc. repeat split; try done.
      intros _ q' p' [= <-] Hp'. congruence.
    + exists "under maintenance". eexists. split; [reflexivity|]. simpl.
      rewrite !string_app_assoc. by repeat split.
Qed.

Lemma display_describes_state_witness :
  exists w',
    displayResourceState "R1"
      (run [AddProject "P1" "Alpha"; AddResource "R1" 2;
            AllocateResource "R1" "P1"; MaintainResource "R1"] (initial []))
    = Ok tt w'.
Proof.
  destruct (display_describes_state
              (run [AddProject "P1" "Alpha"; AddResource "R1" 2;
                    AllocateResource "R1" "P1"; MaintainResource "R1"]
                   (initial []))
              "R1" 0 (Resource.mk "R1" "equipment" UnderMaintenance (Some 0)))
    as (d & w' & H & _).
  - vm_compute; reflexivity.
  - vm_compute; reflexivity.
  - intros q [= <-]. vm_compute. eexists; reflexivity.
  - exists w'. exact H.
Defined.

(** ** Unknown ids (C8) *)

(** C8: use, maintain, allocate and display with an id that is not
    registered throw [std::runtime_error] with ["Resource not found"] or
    ["Project not found"], and at that point the manager, both object stores
    and the log are what they were before the command: no state, list,
    back-reference or log record has changed. *)
Theorem unknown_id_fails_without_effect (w : World) (c : Command) :
  unknown_id c w ->
  exists what w',
    menu_case c w = Throw what w'
    /\ (what = "Resource not found" \/ what = "Project not found")
    /\ rm w' = rm w /\ rstore w' = rstore w /\ pstore w' = pstore w
    /\ logFile w' = logFile w.
Proof.
  destruct c as [id tc|id|id|id name|id name|id| |]; simpl; try done.
  - intros H. unfold_ops. simpl. rewrite H. simpl.
    do 2 eexists. split; [reflexivity|]. simpl. tauto.
  - intros H. unfold_ops. simpl. rewrite H. simpl.
    do 2 eexists. split; [reflexivity|]. simpl. tauto.
  - intros H. unfold_ops. simpl.
    destruct (projects (rm w) !! name) as [pl|] eqn:Hpl; simpl.
    + destruct H as [H|H]; [|done]. rewrite H. simpl.
      do 2 eexists. split; [reflexivity|]. simpl. tauto.
    + do 2 eexists. split; [reflexivity|]. simpl. tauto.
  - intros H. unfold_ops. simpl. rewrite H. simpl.
    do 2 eexists. split; [reflexivity|]. simpl. tauto.
Qed.

Lemma unknown_id_fails_without_effect_witness :
  exists what w',
    menu_case (AllocateResource "R9" "P1")
              (run [AddProject "P1" "Alpha"] (initial [])) = Throw what w'
    /\ logFile w' = ["Project P1 named Alpha added."].
Proof.
  destruct (unknown_id_fails_without_effect
              (run [AddProject "P1" "Alpha"] (initial []))
              (AllocateResource "R9" "P1"))
    as (what & w' & H & _ & _ & _ & _ & Hlog).
  - left. vm_compute; reflexivity.
  - exists what, w'. split; [exact H|]. rewrite Hlog. vm_compute; reflexivity.
Defined.

(** The methods themselves throw in the world they were called in. *)
Lemma unknown_resource_methods (w : World) (id : string) (pl : loc) :
  resources (rm w) !! id = None ->
  getResource id w = Throw "Resource not found" w
  /\ maintainResource id w = Throw "Resource not found" w
  /\ displayResourceState id w = Throw "Resource not found" w
  /\ allocateResourceToProject id pl w = Throw "Resource not found" w.
Proof.
  intros H. unfold_ops. simpl. rewrite H. by repeat split.
Qed.

(** ** Frame of use and maintain (C10) *)

(** C10: for a resource registered under [id] at location [l], using it
    (menu entry 2) and [maintainResource id] return normally and replace the
    object at [l] by one with the same id, type and [allocatedProject]
    (use: state [InUse]); every other resource object, every project object
    and the manager's maps are unchanged. *)
Theorem use_and_maintain_frame (w : World) (id : string) (l : loc)
    (r : Resource.t) :
  resources (rm w) !! id = Some l ->
  rstore w !! l = Some r ->
  (exists w' r',
      menu_case (UseResource id) w = Ok tt w'
      /\ rstore w' = <[l := r']> (rstore w)
      /\ Resource.getState r' = InUse
      /\ Resource.getId r' = Resource.getId r
      /\ Resource.getType r' = Resource.getType r
      /\ Resource.getAllocatedProject r' = Resource.getAllocatedProject r
      /\ (forall l', l' <> l -> rstore w' !! l' = rstore w !! l')
      /\ pstore w' = pstore w /\ rm w' = rm w)
  /\ (exists w' r',
      maintainResource id w = Ok tt w'
      /\ rstore w' = <[l := r']> (rstore w)
      /\ Resource.getId r' = Resource.getId r
      /\ Resource.getType r' = Resource.getType r
      /\ Resource.getAllocatedProject r' = Resource.getAllocatedProject r
      /\ (forall l', l' <> l -> rstore w' !! l' = rstore w !! l')
      /\ pstore w' = pstore w /\ rm w' = rm w).
Proof.
  intros Hl Hr. split.
  - do 2 eexists. split; [by eapply useResource_eq|]. simpl.
    repeat split; try done.
    intros l' Hne. by apply list_lookup_insert_ne.
  - destruct (decide (Resource.getType r = "equipment")) as [Ht|Ht].
    + do 2 eexists. split; [by eapply maintainResource_equipment|]. simpl.
      repeat split; try done.
      intros l' Hne. by apply list_lookup_insert_ne.
    + exists (mkWorld (rm w) (rstore w) (pstore w) (logFile w)
                (cout w +:+ "Resource " +:+ id
                 +:+ " is not equipment and cannot be maintained." +:+ nl)
                (cerr w)), r.
      split; [by eapply maintainResource_not_equipment|]. simpl.
      repeat split; try done.
      by rewrite list_insert_id.
Qed.

Lemma use_and_maintain_frame_witness :
  exists w' r',
    menu_case (UseResource "R1")
      (run [AddProject "P1" "Alpha"; AddResource "R1" 2;
            AllocateResource "R1" "P1"; MaintainResource "R1"] (initial []))
    = Ok tt w'
    /\ rstore w' = [r']
    /\ Resource.getAllocatedProject r' = Some 0.
Proof.
  destruct (use_and_maintain_frame
              (run [AddProject "P1" "Alpha"; AddResource "R1" 2;
                    AllocateResource "R1" "P1"; MaintainResource "R1"]
                   (initial []))
              "R1" 0 (Resource.mk "R1" "equipment" UnderMaintenance (Some 0)))
    as [(w' & r' & H1 & H2 & _ & _ & _ & H3 & _) _].
  - vm_compute; reflexivity.
  - vm_compute; reflexivity.
  - exists w', r'. split; [exact H1|]. split; [|exact H3].
    rewrite H2. vm_compute; reflexivity.
Defined.

(** ** No way back to [Idle] (C7) *)

(** C7 does not hold as stated: adding a resource under an id that is
    already registered is one of the operations, and it puts a new idle
    resource in the place of the old one.  Here ["R1"] is displayed as
    ["In Use"], and after [Add Resource R1] as ["Idle"]. *)
Lemma readding_shows_Idle_again :
  exists w w1 w' w1',
    main_loop [AddResource "R1" 2; UseResource "R1"] (initial []) = Ok tt w
    /\ stateOf w "R1" = Some InUse
    /\ displayResourceState "R1" w = Ok tt w1
    /\ cout w1 = cout w +:+ "Resource R1 is In Use." +:+ nl
    /\ menu_case (AddResource "R1" 2) w = Ok tt w'
    /\ stateOf w' "R1" = Some Idle
    /\ displayResourceState "R1" w' = Ok tt w1'
    /\ cout w1' = cout w' +:+ "Resource R1 is Idle." +:+ nl.
Proof.
  do 4 eexists.
  do 7 (split; [vm_compute; reflexivity|]).
  vm_compute; reflexivity.
Qed.

Lemma not_Idle_step (c : Command) (w w' : World) (l : loc) (r : Resource.t) :
  core_step c w w' ->
  rstore w !! l = Some r -> Resource.getState r <> Idle ->
  exists r', rstore w' !! l = Some r' /\ Resource.getState r' <> Idle.
Proof.
  intros Hstep Hl Hst.
  destruct Hstep as [Hrm Hrs Hps|id tc type _ Hrm Hrs Hps|id name _ Hrm Hrs Hps
                    |id l0 r0 st _ Hid Hr0 Hst0 Hrm Hrs Hps
                    |id name rl pl r0 p _ Hid Hname Hr0 Hp Hrm Hrs Hps];
    rewrite Hrs.
  - eauto.
  - exists r. split; [|done]. by apply lookup_app_l_Some.
  - eauto.
  - destruct (decide (l = l0)) as [->|Hne].
    + eexists. split; [apply list_lookup_insert_eq; by eapply lookup_lt_Some|].
      done.
    + exists r. by rewrite list_lookup_insert_ne.
  - destruct (decide (l = rl)) as [->|Hne].
    + eexists. split; [apply list_lookup_insert_eq; by eapply lookup_lt_Some|].
      done.
    + exists r. by rewrite list_lookup_insert_ne.
Qed.

Lemma exec_resources_lookup (c : Command) (w : World) (id : string) :
  registers id [c] = false ->
  resources (rm (exec c w)) !! id = resources (rm w) !! id.
Proof.
  intros Hreg.
  destruct (exec_core_step c w)
    as [Hrm Hrs Hps|id' tc type Hc Hrm Hrs Hps|id' name _ Hrm Hrs Hps
       |id' l0 r0 st _ Hid Hr0 Hst0 Hrm Hrs Hps
       |id' name rl pl r0 p _ Hid Hname Hr0 Hp Hrm Hrs Hps];
    rewrite Hrm; try done.
  subst c. simpl in Hreg. rewrite orb_false_r in Hreg.
  apply String.eqb_neq in Hreg. simpl. by apply lookup_insert_ne.
Qed.

Lemma not_Idle_exec (c : Command) (w : World) (id : string)
    (s : ResourceState) :
  registers id [c] = false ->
  stateOf w id = Some s -> s <> Idle ->
  exists s', stateOf (exec c w) id = Some s' /\ s' <> Idle.
Proof.
  unfold stateOf, resourceAt. intros Hreg Hs Hne.
  rewrite exec_resources_lookup by done.
  destruct (resources (rm w) !! id) as [l|]; [|done]. simpl in *.
  destruct (rstore w !! l) as [r|] eqn:Hr; [|done].
  injection Hs as <-.
  destruct (not_Idle_step c w (exec c w) l r) as (r' & -> & Hr');
    [apply exec_core_step|done|done|].
  by exists (Resource.getState r').
Qed.

Lemma run_cons (c : Command) (input : list Command) (w : World) :
  run (c :: input) w = run input (exec c w).
Proof. reflexivity. Qed.

(** C7, amended: no sequence of commands ever sets the state of a resource
    object back to [Idle]; and the state seen under a registered id does not
    go from [InUse] or [UnderMaintenance] back to [Idle] as long as no
    command of the sequence adds a resource under that id again (which
    replaces the resource by a new idle one).  Using or allocating a
    registered resource makes it [InUse] whatever its state, and
    maintaining registered equipment makes it [UnderMaintenance] whatever
    its state. *)
Theorem state_never_returns_to_Idle (w : World) (input : list Command) :
  (forall l r,
      rstore w !! l = Some r -> Resource.getState r <> Idle ->
      exists r', rstore (run input w) !! l = Some r'
                 /\ Resource.getState r' <> Idle)
  /\ (forall id s,
      registers id input = false ->
      stateOf w id = Some s -> s <> Idle ->
      exists s', stateOf (run input w) id = Some s' /\ s' <> Idle)
  /\ (forall id r,
      resourceAt w id = Some r ->
      stateOf (exec (UseResource id) w) id = Some InUse
      /\ (forall name, is_Some (projectAt w name) ->
                       stateOf (exec (AllocateResource id name) w) id
                       = Some InUse)
      /\ (Resource.getType r = "equipment" ->
          stateOf (exec (MaintainResource id) w) id = Some UnderMaintenance)).
Proof.
  split; [|split].
  - intros l r Hl Hst.
    apply (invariant_run
             (fun w' => exists r', rstore w' !! l = Some r'
                                   /\ Resource.getState r' <> Idle)).
    + intros c w1 w2 Hstep (r1 & H1 & H2). by eapply not_Idle_step.
    + eauto.
  - revert w. induction input as [|c input IH]; intros w id s Hreg Hs Hne.
    + by exists s.
    + simpl in Hreg. apply orb_false_elim in Hreg as [Hc Hreg].
      destruct (not_Idle_exec c w id s) as (s1 & Hs1 & Hne1); try done.
      { simpl. by rewrite Hc. }
      rewrite run_cons. by eapply IH.
  - intros id r Hr. unfold resourceAt in Hr.
    destruct (resources (rm w) !! id) as [l|] eqn:Hl; [|done].
    simpl in Hr.
    pose proof (lookup_lt_Some _ _ _ Hr) as Hlt.
    split; [|split].
    + unfold exec. rewrite (useResource_eq w id l r) by done.
      unfold stateOf, resourceAt. simpl. rewrite Hl. simpl.
      by rewrite list_lookup_insert_eq.
    + intros name [p Hp]. unfold projectAt in Hp.
      destruct (projects (rm w) !! name) as [pl|] eqn:Hpl; [|done].
      simpl in Hp. pose proof (lookup_lt_Some _ _ _ Hp) as Hltp.
      unfold exec. unfold_ops. simpl. rewrite Hpl. simpl. rewrite Hl. simpl.
      rewrite Hr. simpl. rewrite Hp. simpl.
      rewrite list_lookup_insert_eq by done. simpl.
      rewrite list_lookup_insert_eq by done. simpl.
      unfold stateOf, resourceAt. simpl. rewrite Hl. simpl.
      by rewrite list_lookup_insert_eq by (by rewrite length_insert).
    + intros Ht. unfold exec. unfold_ops. simpl. rewrite Hl. simpl.
      rewrite Hr, Ht. simpl. rewrite Hr. simpl.
      unfold stateOf, resourceAt. simpl. rewrite Hl. simpl.
      by rewrite list_lookup_insert_eq.
Qed.

Lemma state_never_returns_to_Idle_witness :
  (exists r', rstore (run [MaintainResource "R1"; AddResource "R1" 1]
                          (run [AddResource "R1" 2; UseResource "R1"]
                               (initial []))) !! 0 = Some r'
              /\ Resource.getState r' <> Idle)
  /\ (exists s', stateOf (run [MaintainResource "R1"; AddResource "R2" 1]
                              (run [AddResource "R1" 2; UseResource "R1"]
                                   (initial []))) "R1" = Some s'
                 /\ s' <> Idle).
Proof.
  split.
  - apply (proj1 (state_never_returns_to_Idle
                    (run [AddResource "R1" 2; UseResource "R1"] (initial []))
                    [MaintainResource "R1"; AddResource "R1" 1])
                 0 (Resource.mk "R1" "equipment" InUse None)).
    + vm_compute; reflexivity.
    + discriminate.
  - apply (proj1 (proj2 (state_never_returns_to_Idle
                    (run [AddResource "R1" 2; UseResource "R1"] (initial []))
                    [MaintainResource "R1"; AddResource "R2" 1]))
                 "R1" InUse).
    + vm_compute; reflexivity.
    + vm_compute; reflexivity.
    + discriminate.
Defined.

(** ** Project lists and back-references (C4) *)









(** ** Pointers stay valid

    In the worlds the program reaches, every pointer the program follows
    leads to an object, so no command is ever [Undefined]. *)
Lemma valid_pointers_initial (log0 : list string) :
  valid_pointers (initial log0).
Proof.
  split; [|split]; simpl.
  - intros id l H. by rewrite lookup_empty in H.
  - intros id l H. by rewrite lookup_empty in H.
  - intros l r q H. by destruct l.
Qed.

Lemma valid_pointers_step (c : Command) (w w' : World) :
  core_step c w w' -> valid_pointers w -> valid_pointers w'.
Proof.
  intros Hstep (Hres & Hproj & Hback).
  destruct Hstep as [Hrm Hrs Hps|id tc type _ Hrm Hrs Hps|id name _ Hrm Hrs Hps
                    |id l0 r0 st _ Hid Hr0 Hst0 Hrm Hrs Hps
                    |id name rl pl r0 p _ Hid Hname Hr0 Hp Hrm Hrs Hps];
    unfold valid_pointers; rewrite Hrm, Hrs, Hps; simpl.
  - done.
  - split; [|split; [done|]].
    + intros id' l H. rewrite length_app. simpl.
      apply lookup_insert_Some in H as [[_ <-]|[_ H]]; [lia|].
      apply Hres in H. lia.
    + intros l r q H Hq.
      apply lookup_snoc_Some in H as [H|[_ ->]]; [eauto|done].
  - split; [done|split].
    + intros id' l H. rewrite length_app. simpl.
      apply lookup_insert_Some in H as [[_ <-]|[_ H]]; [lia|].
      apply Hproj in H. lia.
    + intros l r q H Hq. rewrite length_app. simpl.
      specialize (Hback _ _ _ H Hq). lia.
  - rewrite length_insert. split; [done|split; [done|]].
    intros l r q H Hq.
    apply lookup_insert_Some_cases in H as [[-> ->]|[_ H]]; eauto.
  - rewrite !length_insert. split; [done|split; [done|]].
    intros l r q H Hq.
    apply lookup_insert_Some_cases in H as [[-> ->]|[_ H]]; [|eauto].
    simpl in Hq. injection Hq as <-. by eapply lookup_lt_Some.
Qed.

Lemma menu_case_defined (c : Command) (w : World) :
  valid_pointers w -> menu_case c w <> Undefined.
Proof.
  intros (Hres & Hproj & Hback).
  destruct c as [id tc|id|id|id name|id name|id| |]; try done;
    unfold_ops; simpl.
  - destruct (resources (rm w) !! id) as [l|] eqn:Hl; simpl; [|done].
    destruct (lookup_lt_is_Some_2 (rstore w) l) as [r Hr]; [eauto|].
    by rewrite Hr.
  - destruct (resources (rm w) !! id) as [l|] eqn:Hl; simpl; [|done].
    destruct (lookup_lt_is_Some_2 (rstore w) l) as [r Hr]; [eauto|].
    rewrite Hr.
    destruct (String.eqb (Resource.getType r) "equipment"); simpl; [|done].
    by rewrite Hr.
  - destruct (projects (rm w) !! name) as [pl|] eqn:Hpl; simpl; [|done].
    destruct (resources (rm w) !! id) as [rl|] eqn:Hrl; simpl; [|done].
    destruct (lookup_lt_is_Some_2 (rstore w) rl) as [r Hr]; [eauto|].
    destruct (lookup_lt_is_Some_2 (pstore w) pl) as [p Hp]; [eauto|].
    rewrite Hr. simpl. rewrite Hp. simpl.
    rewrite list_lookup_insert_eq by (by eapply lookup_lt_Some). simpl.
    by rewrite list_lookup_insert_eq by (by eapply lookup_lt_Some).
  - destruct (resources (rm w) !! id) as [l|] eqn:Hl; simpl; [|done].
    destruct (lookup_lt_is_Some_2 (rstore w) l) as [r Hr]; [eauto|].
    rewrite Hr.
    destruct (Resource.getState r); simpl; try done.
    destruct (Resource.getAllocatedProject r) as [q|] eqn:Hq; simpl; [|done].
    destruct (lookup_lt_is_Some_2 (pstore w) q) as [p Hp]; [eauto|].
    by rewrite Hp.
Qed.

Lemma run_defined (log0 : list string) (input : list Command)
    (c : Command) :
  menu_case c (run input (initial log0)) <> Undefined.
Proof.
  apply menu_case_defined.
  apply (invariant_run valid_pointers valid_pointers_step).
  apply valid_pointers_initial.
Qed.

Lemma main_loop_defined (input : list Command) (w : World) :
  valid_pointers w -> main_loop input w <> Undefined.
Proof.
  revert w. induction input as [|c rest IH]; intros w Hw; [done|].
  simpl. unfold mbind, M_bind, bind at 1. simpl.
  set (w1 := mkWorld _ _ _ _ _ _).
  assert (valid_pointers w1) as Hw1 by exact Hw.
  unfold bind at 1.
  pose proof (menu_case_defined c w1 Hw1) as Hd.
  pose proof (exec_core_step c w1) as Hs. unfold exec in Hs.
  destruct (menu_case c w1) as [[] w2|what w2|]; [|done|done].
  destruct (choice_of c =? 7)%Z; [done|].
  apply IH. by eapply valid_pointers_step.
Qed.

(** ** Scenarios *)

(** Equipment ["R1"] is idle when added and under maintenance after
    [Maintain Resource], which is logged. *)
Example scenario_maintain_equipment :
  stateOf (run [AddResource "R1" 2] (initial [])) "R1" = Some Idle
  /\ stateOf (run [AddResource "R1" 2; MaintainResource "R1"] (initial []))
             "R1" = Some UnderMaintenance
  /\ logFile (run [AddResource "R1" 2; MaintainResource "R1"] (initial []))
     = ["Resource R1 of type equipment added.";
        "Resource R1 is under maintenance."].
Proof. repeat split; vm_compute; reflexivity. Qed.

(** Worker ["R2"] allocated to project ["P1"] named ["Alpha"] is in use and
    is the only entry of the project's list; maintaining it afterwards
    changes neither its state nor the log. *)
Example scenario_allocate_worker :
  let w := run [AddProject "P1" "Alpha"; AddResource "R2" 1;
                AllocateResource "R2" "P1"] (initial []) in
  stateOf w "R2" = Some InUse
  /\ Project.getResources <$> projectAt w "P1" = Some [0]
  /\ resources (rm w) !! "R2" = Some 0
  /\ logFile w = ["Project P1 named Alpha added.";
                  "Resource R2 of type worker added.";
                  "Resource R2 allocated to project Alpha"]
  /\ stateOf (exec (MaintainResource "R2") w) "R2" = Some InUse
  /\ logFile (exec (MaintainResource "R2") w) = logFile w.
Proof. repeat split; vm_compute; reflexivity. Qed.

(** A resource that is in use and allocated is displayed without its
    project; once under maintenance it is displayed with it. *)
Example scenario_display_allocated :
  let w := run [AddProject "P1" "Alpha"; AddResource "R1" 2;
                AllocateResource "R1" "P1"] (initial []) in
  cout (exec (DisplayResourceState "R1") w)
  = cout w +:+ "Enter Resource ID to display state: "
    +:+ "Resource R1 is In Use." +:+ nl
  /\ cout (exec (DisplayResourceState "R1") (exec (MaintainResource "R1") w))
     = cout (exec (MaintainResource "R1") w)
       +:+ "Enter Resource ID to display state: "
       +:+ "Resource R1 is under maintenance and allocated to project Alpha."
       +:+ nl.
Proof. repeat split; vm_compute; reflexivity. Qed.

(** A throw ends [main]: commands after it are not run. *)
Example scenario_throw_ends_main :
  exists w,
    main [UseResource "R9"; AddResource "R1" 1] (initial []) = Ok tt w
    /\ resources (rm w) !! "R1" = None
    /\ logFile w = []
    /\ cerr w = "Error: Resource not found" +:+ nl.
Proof.
  eexists. split; [vm_compute; reflexivity|].
  repeat split; vm_compute; reflexivity.
Qed.

(** * Further properties of the program *)

(** ** The loop of [main] *)

Lemma main_loop_cons (c : Command) (rest : list Command) (w : World) :
  main_loop (c :: rest) w =
  match (print menu;; menu_case c) w with
  | Ok _ w2 => if (choice_of c =? 7)%Z then Ok tt w2 else main_loop rest w2
  | Throw what w2 => Throw what w2
  | Undefined => Undefined
  end.
Proof.
  simpl. unfold mbind, M_bind, bind, print. simpl.
  destruct (menu_case c _) as [[] w2|what w2|]; try reflexivity.
  by destruct (choice_of c =? 7)%Z.
Qed.

Lemma main_loop_app (pre rest : list Command) (w w1 : World) :
  exit_free pre = true ->
  main_loop pre w = Ok tt w1 ->
  main_loop (pre ++ rest) w = main_loop rest w1.
Proof.
  revert w. induction pre as [|c pre IH]; intros w Hfree Hpre.
  - by injection Hpre as <-.
  - simpl in Hfree. apply andb_prop in Hfree as [Hc Hfree].
    apply negb_true_iff in Hc.
    change ((c :: pre) ++ rest) with (c :: (pre ++ rest)).
    rewrite main_loop_cons in *. rewrite Hc in *.
    destruct ((print menu;; menu_case c) w) as [[] w2|what w2|]; try done.
    by apply IH.
Qed.

(** X1: when the commands entered so far have all returned (none being the
    exit entry) and the next one throws, [main] reports ["Error: "] and the
    message on [std::cerr] and returns: whatever was entered after the
    throwing command is not run. *)
Theorem throw_ends_main (pre post : list Command) (c : Command)
    (w w1 w2 : World) (what : string) :
  exit_free pre = true ->
  main_loop pre w = Ok tt w1 ->
  (print menu;; menu_case c) w1 = Throw what w2 ->
  main (pre ++ c :: post) w =
  Ok tt (mkWorld (rm w2) (rstore w2) (pstore w2) (logFile w2) (cout w2)
                 (cerr w2 +:+ "Error: " +:+ what +:+ nl)).
Proof.
  intros Hfree Hpre Hc. unfold main.
  rewrite (main_loop_app pre (c :: post) w w1 Hfree Hpre).
  by rewrite main_loop_cons, Hc.
Qed.

Lemma throw_ends_main_witness :
  exists w2,
    main ([AddResource "R1" 1] ++ UseResource "R9" :: [AddResource "R2" 1])
         (initial []) = Ok tt w2
    /\ resources (rm w2) !! "R2" = None
    /\ cerr w2 = "Error: Resource not found" +:+ nl.
Proof.
  eexists. split.
  - eapply (throw_ends_main [AddResource "R1" 1] [AddResource "R2" 1]
              (UseResource "R9") (initial [])).
    + vm_compute; reflexivity.
    + vm_compute; reflexivity.
    + vm_compute; reflexivity.
  - split; vm_compute; reflexivity.
Defined.

(** X2: the exit entry ends the loop: what is entered after it has no
    effect on what [main] does. *)
Theorem exit_ends_main (pre post : list Command) (w : World) :
  main (pre ++ Exit :: post) w = main (pre ++ [Exit]) w.
Proof.
  unfold main.
  assert (main_loop (pre ++ Exit :: post) w = main_loop (pre ++ [Exit]) w)
    as ->; [|done].
  revert w. induction pre as [|c pre IH]; intros w; [reflexivity|].
  change ((c :: pre) ++ Exit :: post) with (c :: (pre ++ Exit :: post)).
  change ((c :: pre) ++ [Exit]) with (c :: (pre ++ [Exit])).
  rewrite !main_loop_cons.
  destruct ((print menu;; menu_case c) w) as [[] w2|what w2|]; try done.
  destruct (choice_of c =? 7)%Z; [done|apply IH].
Qed.

(** ** Throws *)

(** X3: the only way a command can throw is a lookup of an id the manager
    does not have; the message is one of the two lookup messages, and at the
    throw the manager, the stores and the log are untouched. *)
Theorem throw_only_for_unknown_id (c : Command) (w w' : World)
    (what : string) :
  menu_case c w = Throw what w' ->
  unknown_id c w
  /\ (what = "Resource not found" \/ what = "Project not found")
  /\ same_core w w'.
Proof.
  unfold same_core.
  destruct c as [id tc|id|id|id name|id name|id| |]; simpl; try done;
    unfold_ops; simpl.
  - destruct (resources (rm w) !! id) as [l|] eqn:Hl; simpl.
    + by destruct (rstore w !! l).
    + intros [= <- <-]. simpl. tauto.
  - destruct (resources (rm w) !! id) as [l|] eqn:Hl; simpl.
    + destruct (rstore w !! l) as [r|] eqn:Hr; [|done].
      destruct (String.eqb _ _); simpl; [|done]. by rewrite Hr.
    + intros [= <- <-]. simpl. tauto.
  - destruct (projects (rm w) !! name) as [pl|] eqn:Hpl; simpl.
    + destruct (resources (rm w) !! id) as [rl|] eqn:Hrl; simpl.
      * destruct (rstore w !! rl) as [r|] eqn:Hr; simpl; [|done].
        destruct (pstore w !! pl) as [p|] eqn:Hp; simpl; [|done].
        rewrite list_lookup_insert_eq by (by eapply lookup_lt_Some). simpl.
        by rewrite list_lookup_insert_eq by (by eapply lookup_lt_Some).
      * intros [= <- <-]. simpl. tauto.
    + intros [= <- <-]. simpl. tauto.
  - destruct (resources (rm w) !! id) as [l|] eqn:Hl; simpl.
    + destruct (rstore w !! l) as [r|] eqn:Hr; [|done].
      destruct (Resource.getState r); simpl; try done.
      destruct (Resource.getAllocatedProject r) as [q|]; simpl; [|done].
      by destruct (pstore w !! q).
    + intros [= <- <-]. simpl. tauto.
Qed.

Lemma throw_only_for_unknown_id_witness :
  unknown_id (MaintainResource "R9")
             (run [AddResource "R1" 2] (initial [])).
Proof.
  eapply (throw_only_for_unknown_id (MaintainResource "R9")
            (run [AddResource "R1" 2] (initial []))).
  vm_compute; reflexivity.
Defined.

(** ** [main] and [run] *)

Lemma same_core_refl (w : World) : same_core w w.
Proof. by repeat split. Qed.

Lemma same_core_trans (w1 w2 w3 : World) :
  same_core w1 w2 -> same_core w2 w3 -> same_core w1 w3.
Proof.
  intros (? & ? & ? & ?) (? & ? & ? & ?). repeat split; congruence.
Qed.

(** What a command does to the manager, the stores and the log does not
    depend on the console. *)
Lemma exec_same_core (c : Command) (w1 w2 : World) :
  same_core w1 w2 -> same_core (exec c w1) (exec c w2).
Proof.
  destruct w1 as [m1 rs1 ps1 lg1 co1 ce1], w2 as [m2 rs2 ps2 lg2 co2 ce2].
  unfold same_core. simpl. intros (<- & <- & <- & <-).
  destruct c as [id tc|id|id|id name|id name|id| |]; unfold exec;
    unfold_ops; simpl; try done.
  - destruct (resources m1 !! id) as [l|]; simpl; [|done].
    by destruct (rs1 !! l).
  - destruct (resources m1 !! id) as [l|]; simpl; [|done].
    destruct (rs1 !! l) as [r|] eqn:Hr; simpl; [|done].
    destruct (String.eqb _ _); simpl; [|done]. by rewrite Hr.
  - destruct (projects m1 !! name) as [pl|]; simpl; [|done].
    destruct (resources m1 !! id) as [rl|]; simpl; [|done].
    destruct (rs1 !! rl) as [r|] eqn:Hr; simpl; [|done].
    destruct (ps1 !! pl) as [p|] eqn:Hp; simpl; [|done].
    rewrite list_lookup_insert_eq by (by eapply lookup_lt_Some). simpl.
    by rewrite list_lookup_insert_eq by (by eapply lookup_lt_Some).
  - destruct (resources m1 !! id) as [l|]; simpl; [|done].
    destruct (rs1 !! l) as [r|]; simpl; [|done].
    destruct (Resource.getState r); simpl; try done.
    destruct (Resource.getAllocatedProject r) as [q|]; simpl; [|done].
    by destruct (ps1 !! q).
Qed.

Lemma run_same_core (input : list Command) (w1 w2 : World) :
  same_core w1 w2 -> same_core (run input w1) (run input w2).
Proof.
  revert w1 w2. induction input as [|c input IH]; intros w1 w2 H; [done|].
  rewrite !run_cons. by apply IH, exec_same_core.
Qed.

Lemma loop_body_exec (c : Command) (w w' : World) :
  world_of ((print menu;; menu_case c) w) = Some w' ->
  same_core w' (exec c w).
Proof.
  unfold mbind, M_bind, bind, print. simpl.
  set (w1 := mkWorld _ _ _ _ _ _).
  assert (same_core w1 w) as H1 by (by repeat split).
  apply (exec_same_core c) in H1. unfold exec in H1 at 1.
  destruct (menu_case c w1) as [[] w2|what w2|]; simpl; [| |done];
    by intros [= <-].
Qed.

Lemma main_loop_run_prefix (input : list Command) (w w' : World) :
  world_of (main_loop input w) = Some w' ->
  exists k, same_core w' (run (take k input) w).
Proof.
  revert w. induction input as [|c rest IH]; intros w.
  - intros [= <-]. exists 0. apply same_core_refl.
  - rewrite main_loop_cons.
    pose proof (loop_body_exec c w) as Hbody.
    destruct ((print menu;; menu_case c) w) as [[] w2|what w2|]; simpl in *;
      [| |done].
    + specialize (Hbody w2 eq_refl).
      destruct (choice_of c =? 7)%Z.
      * intros [= <-]. by exists 1.
      * intros H. apply IH in H as [k Hk]. exists (S k).
        change (take (S k) (c :: rest)) with (c :: take k rest).
        rewrite run_cons.
        eapply same_core_trans; [exact Hk|]. by apply run_same_core.
    + intros [= <-]. exists 1. by apply Hbody.
Qed.

(** The world [main] returns in is, up to the console, one in which its
    loop ended. *)
Lemma main_loop_of_main (input : list Command) (w w' : World) :
  main input w = Ok tt w' ->
  exists w1, world_of (main_loop input w) = Some w1 /\ same_core w' w1.
Proof.
  unfold main. intros H.
  destruct (main_loop input w) as [[] w1|what w1|]; [| |done].
  - injection H as <-. exists w1. split; [done|apply same_core_refl].
  - injection H as <-. exists w1. split; [done|]. by repeat split.
Qed.

(** X4: apart from the console, the world in which [main] returns is the
    one obtained by running the first [k] commands of the input one after
    the other, for some [k]: neither the menu nor the prompts nor the error
    report influence the manager, the objects or the log. *)
Theorem main_is_run_of_prefix (input : list Command) (w w' : World) :
  main input w = Ok tt w' ->
  exists k, k <= length input /\ same_core w' (run (take k input) w).
Proof.
  intros H. apply main_loop_of_main in H as (w1 & H1 & Hs).
  apply main_loop_run_prefix in H1 as [k Hk].
  exists (k `min` length input). split; [lia|].
  eapply same_core_trans; [exact Hs|].
  replace (take (k `min` length input) input) with (take k input); [done|].
  destruct (decide (k <= length input)) as [Hle|Hgt].
  - by rewrite Nat.min_l.
  - rewrite Nat.min_r by lia. rewrite !take_ge by lia. done.
Qed.

Lemma main_is_run_of_prefix_witness :
  exists w' k,
    main [AddResource "R1" 2; UseResource "R9"; AddResource "R2" 1]
         (initial []) = Ok tt w'
    /\ k <= 3
    /\ same_core w'
         (run (take k [AddResource "R1" 2; UseResource "R9";
                       AddResource "R2" 1]) (initial [])).
Proof.
  eassert (main [AddResource "R1" 2; UseResource "R9"; AddResource "R2" 1]
                (initial []) = Ok tt _) as H by (vm_compute; reflexivity).
  destruct (main_is_run_of_prefix _ _ _ H) as (k & Hk & Hs).
  eexists _, k. split; [exact H|]. split; [exact Hk|exact Hs].
Defined.

(** ** The log *)

Lemma exec_log (c : Command) (w : World) :
  logFile (exec c w) = logFile w
  \/ exists message, logFile (exec c w) = logFile w ++ [message].
Proof.
  destruct c as [id tc|id|id|id name|id name|id| |]; unfold exec;
    unfold_ops; simpl; eauto.
  - destruct (resources (rm w) !! id) as [l|]; simpl; [|by left].
    destruct (rstore w !! l); simpl; eauto.
  - destruct (resources (rm w) !! id) as [l|]; simpl; [|by left].
    destruct (rstore w !! l) as [r|] eqn:Hr; simpl; [|by left].
    destruct (String.eqb _ _); simpl; [|by left]. rewrite Hr. simpl. eauto.
  - destruct (projects (rm w) !! name) as [pl|]; simpl; [|by left].
    destruct (resources (rm w) !! id) as [rl|]; simpl; [|by left].
    destruct (rstore w !! rl) as [r|] eqn:Hr; simpl; [|by left].
    destruct (pstore w !! pl) as [p|] eqn:Hp; simpl; [|by left].
    rewrite list_lookup_insert_eq by (by eapply lookup_lt_Some). simpl.
    rewrite list_lookup_insert_eq by (by eapply lookup_lt_Some). simpl.
    eauto.
  - destruct (resources (rm w) !! id) as [l|]; simpl; [|by left].
    destruct (rstore w !! l) as [r|]; simpl; [|by left].
    destruct (Resource.getState r); simpl; try by left.
    destruct (Resource.getAllocatedProject r) as [q|]; simpl; [|by left].
    destruct (pstore w !! q); simpl; by left.
Qed.

Lemma run_log (input : list Command) (w : World) :
  logFile w `prefix_of` logFile (run input w)
  /\ length (logFile (run input w)) <= length (logFile w) + length input.
Proof.
  induction input as [|c input [IH1 IH2]] using rev_ind.
  - simpl. split; [done|lia].
  - rewrite run_snoc, length_app. simpl.
    destruct (exec_log c (run input w)) as [->|[m ->]].
    + split; [done|lia].
    + split; [by apply prefix_app_r|]. rewrite length_app. simpl. lia.
Qed.

(** X5: the log only grows, and by at most one record per command: when
    [main] returns, the log it started with is a prefix of the log, and the
    log is longer by at most the number of commands entered. *)
Theorem log_is_append_only (input : list Command) (w w' : World) :
  main input w = Ok tt w' ->
  logFile w `prefix_of` logFile w'
  /\ length (logFile w') <= length (logFile w) + length input.
Proof.
  intros H. apply main_loop_of_main in H as (w1 & H1 & _ & _ & _ & Hlog).
  apply main_loop_run_prefix in H1 as (k & _ & _ & _ & Hlog1).
  rewrite Hlog, Hlog1.
  destruct (run_log (take k input) w) as [Hp Hl].
  split; [done|]. rewrite length_take in Hl. lia.
Qed.

Lemma log_is_append_only_witness :
  exists w',
    main [AddResource "R1" 2; DisplayResourceState "R1"; UseResource "R9"]
         (initial ["earlier record"]) = Ok tt w'
    /\ ["earlier record"] `prefix_of` logFile w'
    /\ length (logFile w') <= 1 + 3.
Proof.
  eassert (main [AddResource "R1" 2; DisplayResourceState "R1";
                 UseResource "R9"] (initial ["earlier record"]) = Ok tt _)
    as H by (vm_compute; reflexivity).
  destruct (log_is_append_only _ _ _ H) as [Hp Hl].
  eexists. split; [exact H|]. split; [exact Hp|exact Hl].
Defined.

(** ** Where objects come from *)

(** Every resource object in the store after a command was there before,
    or is the one the command made or changed. *)
Lemma exec_rstore_cases (c : Command) (w : World) (l : loc)
    (r' : Resource.t) :
  rstore (exec c w) !! l = Some r' ->
  rstore w !! l = Some r'
  \/ (exists id tc,
         c = AddResource id tc /\ l = length (rstore w)
         /\ r' = Resource.new id (if (tc =? 1)%Z then "worker"
                                  else "equipment"))
  \/ (exists id r,
         c = UseResource id /\ resources (rm w) !! id = Some l
         /\ rstore w !! l = Some r /\ r' = Resource.setState InUse r)
  \/ (exists id r,
         c = MaintainResource id /\ resources (rm w) !! id = Some l
         /\ rstore w !! l = Some r /\ Resource.getType r = "equipment"
         /\ r' = Resource.setState UnderMaintenance r)
  \/ (exists id name r pl,
         c = AllocateResource id name /\ resources (rm w) !! id = Some l
         /\ projects (rm w) !! name = Some pl
         /\ rstore w !! l = Some r /\ is_Some (pstore w !! pl)
         /\ r' = Resource.allocateToProject pl (Resource.setState InUse r)).
Proof.
  destruct c as [id tc|id|id|id name|id name|id| |]; unfold exec;
    unfold_ops; simpl; eauto.
  - intros H. apply lookup_snoc_Some in H as [H|[-> ->]]; [by left|].
    right. left. by exists id, tc.
  - destruct (resources (rm w) !! id) as [l0|] eqn:Hl; simpl; [|by left].
    destruct (rstore w !! l0) as [r|] eqn:Hr; simpl; [|by left].
    intros H. apply lookup_insert_Some_cases in H as [[-> ->]|[_ H]];
      [|by left].
    right. right. left. by exists id, r.
  - destruct (resources (rm w) !! id) as [l0|] eqn:Hl; simpl; [|by left].
    destruct (rstore w !! l0) as [r|] eqn:Hr; simpl; [|by left].
    destruct (String.eqb _ _) eqn:Ht; simpl; [|by left]. rewrite Hr. simpl.
    intros H. apply lookup_insert_Some_cases in H as [[-> ->]|[_ H]];
      [|by left].
    apply String.eqb_eq in Ht.
    right. right. right. left. by exists id, r.
  - destruct (projects (rm w) !! name) as [pl|] eqn:Hpl; simpl; [|by left].
    destruct (resources (rm w) !! id) as [rl|] eqn:Hrl; simpl; [|by left].
    destruct (rstore w !! rl) as [r|] eqn:Hr; simpl; [|by left].
    destruct (pstore w !! pl) as [p|] eqn:Hp; simpl; [|by left].
    rewrite list_lookup_insert_eq by (by eapply lookup_lt_Some). simpl.
    rewrite list_lookup_insert_eq by (by eapply lookup_lt_Some). simpl.
    rewrite list_insert_insert_eq.
    intros H. apply lookup_insert_Some_cases in H as [[-> ->]|[_ H]];
      [|by left].
    right. right. right. right. exists id, name, r, pl.
    rewrite Hp. eauto 10.
  - destruct (resources (rm w) !! id) as [l0|]; simpl; [|by left].
    destruct (rstore w !! l0) as [r|]; simpl; [|by left].
    destruct (Resource.getState r); simpl; try by left.
    destruct (Resource.getAllocatedProject r) as [q|]; simpl; [|by left].
    destruct (pstore w !! q); simpl; by left.
Qed.

(** ** What the manager's entries lead to *)

Lemma key_matches_id_step (c : Command) (w w' : World) :
  core_step c w w' ->
  valid_pointers w
  /\ (forall id l r, resources (rm w) !! id = Some l ->
                     rstore w !! l = Some r -> Resource.getId r = id)
  /\ (forall id l p, projects (rm w) !! id = Some l ->
                     pstore w !! l = Some p -> Project.getId p = id) ->
  valid_pointers w'
  /\ (forall id l r, resources (rm w') !! id = Some l ->
                     rstore w' !! l = Some r -> Resource.getId r = id)
  /\ (forall id l p, projects (rm w') !! id = Some l ->
                     pstore w' !! l = Some p -> Project.getId p = id).
Proof.
  intros Hstep (Hvalid & Hres & Hproj).
  split; [by eapply valid_pointers_step|].
  destruct Hvalid as (Hvr & Hvp & _).
  destruct Hstep as [Hrm Hrs Hps|id tc type _ Hrm Hrs Hps|id name _ Hrm Hrs Hps
                    |id l0 r0 st _ Hid Hr0 Hst0 Hrm Hrs Hps
                    |id name rl pl r0 p0 _ Hid Hname Hr0 Hp Hrm Hrs Hps];
    rewrite Hrm, Hrs, Hps; simpl.
  - done.
  - split; [|done]. intros id' l r Hl Hr.
    apply lookup_insert_Some in Hl as [[<- <-]|[Hne Hl]].
    + rewrite lookup_app_r, Nat.sub_diag in Hr by done. by injection Hr as <-.
    + rewrite lookup_app_l in Hr by eauto. eauto.
  - split; [done|]. intros id' l p Hl Hp.
    apply lookup_insert_Some in Hl as [[<- <-]|[Hne Hl]].
    + rewrite lookup_app_r, Nat.sub_diag in Hp by done. by injection Hp as <-.
    + rewrite lookup_app_l in Hp by eauto. eauto.
  - split; [|done]. intros id' l r Hl Hr.
    apply lookup_insert_Some_cases in Hr as [[-> ->]|[_ Hr]]; [|eauto].
    simpl. eauto.
  - split.
    + intros id' l r Hl Hr.
      apply lookup_insert_Some_cases in Hr as [[-> ->]|[_ Hr]]; [|eauto].
      simpl. eauto.
    + intros id' l p Hl Hp'.
      apply lookup_insert_Some_cases in Hp' as [[-> ->]|[_ Hp']]; [|eauto].
      simpl. eauto.
Qed.

Lemma resource_types_exec (c : Command) (w : World) :
  (forall l r, rstore w !! l = Some r ->
               Resource.getType r = "worker"
               \/ Resource.getType r = "equipment") ->
  forall l r, rstore (exec c w) !! l = Some r ->
              Resource.getType r = "worker"
              \/ Resource.getType r = "equipment".
Proof.
  intros Hinv l r' H.
  apply exec_rstore_cases in H
    as [H|[(id & tc & _ & _ & ->)|[(id & r & _ & _ & Hr & ->)
       |[(id & r & _ & _ & Hr & _ & ->)
        |(id & name & r & pl & _ & _ & _ & Hr & _ & ->)]]]]; simpl; eauto.
  destruct (tc =? 1)%Z; eauto.
Qed.

Lemma resource_types_run (log0 : list string) (input : list Command) :
  forall l r, rstore (run input (initial log0)) !! l = Some r ->
              Resource.getType r = "worker"
              \/ Resource.getType r = "equipment".
Proof.
  induction input as [|c input IH] using rev_ind.
  - intros l r H. by destruct l.
  - rewrite run_snoc. by apply resource_types_exec.
Qed.

(** X6: in every world reached from an empty manager, the resource found
    under an id has that id and is of type ["worker"] or ["equipment"], and
    the project found under an id has that id. *)
Theorem registered_object_has_its_key (log0 : list string)
    (input : list Command) :
  (forall id r,
      resourceAt (run input (initial log0)) id = Some r ->
      Resource.getId r = id
      /\ (Resource.getType r = "worker" \/ Resource.getType r = "equipment"))
  /\ (forall id p,
      projectAt (run input (initial log0)) id = Some p ->
      Project.getId p = id).
Proof.
  destruct (invariant_run _ key_matches_id_step input (initial log0))
    as (_ & Hres & Hproj).
  { split; [apply valid_pointers_initial|]. simpl.
    split; intros id l x H; by rewrite lookup_empty in H. }
  split.
  - intros id r H. unfold resourceAt in H.
    destruct (resources _ !! id) as [l|] eqn:Hl; [|done]. simpl in H.
    split; [by eapply Hres|by eapply resource_types_run].
  - intros id p H. unfold projectAt in H.
    destruct (projects _ !! id) as [l|] eqn:Hl; [|done]. simpl in H.
    by eapply Hproj.
Qed.

Lemma registered_object_has_its_key_witness :
  Resource.getId (Resource.mk "R1" "equipment" InUse None) = "R1"
  /\ Project.getId (Project.mk "P1" "Alpha" []) = "P1".
Proof.
  split.
  - apply (proj1 (registered_object_has_its_key []
                    [AddResource "R1" 7; AddResource "R2" 1;
                     UseResource "R1"]) "R1").
    vm_compute; reflexivity.
  - apply (proj2 (registered_object_has_its_key []
                    [AddProject "P1" "Alpha"]) "P1").
    vm_compute; reflexivity.
Defined.

(** ** Nothing is removed or renamed *)

Lemma registered_step (c : Command) (w w' : World) :
  core_step c w w' ->
  (forall id, is_Some (resources (rm w) !! id) ->
              is_Some (resources (rm w') !! id))
  /\ (forall id, is_Some (projects (rm w) !! id) ->
                 is_Some (projects (rm w') !! id)).
Proof.
  intros Hstep.
  destruct Hstep as [Hrm _ _|id tc type _ Hrm _ _|id name _ Hrm _ _
                    |id l0 r0 st _ _ _ _ Hrm _ _
                    |id name rl pl r0 p0 _ _ _ _ _ Hrm _ _];
    rewrite Hrm; simpl; try done.
  - split; [|done]. intros id' H. rewrite lookup_insert_is_Some.
    destruct (decide (id = id')); eauto.
  - split; [done|]. intros id' H. rewrite lookup_insert_is_Some.
    destruct (decide (id = id')); eauto.
Qed.

(** X7: there is no way to unregister: an id the manager has, for a
    resource or for a project, is still there after any sequence of
    commands. *)
Theorem registered_ids_stay (input : list Command) (w : World) :
  (forall id, is_Some (resources (rm w) !! id) ->
              is_Some (resources (rm (run input w)) !! id))
  /\ (forall id, is_Some (projects (rm w) !! id) ->
                 is_Some (projects (rm (run input w)) !! id)).
Proof.
  apply (invariant_run
           (fun w' =>
              (forall id, is_Some (resources (rm w) !! id) ->
                          is_Some (resources (rm w') !! id))
              /\ (forall id, is_Some (projects (rm w) !! id) ->
                             is_Some (projects (rm w') !! id)))).
  - intros c w1 w2 Hstep [H1 H2].
    destruct (registered_step c w1 w2 Hstep) as [H3 H4]. split; eauto.
  - done.
Qed.

Lemma registered_ids_stay_witness :
  is_Some (resources
             (rm (run [AddResource "R2" 1; AddResource "R1" 1;
                       UseResource "R9"]
                      (run [AddResource "R1" 2] (initial [])))) !! "R1").
Proof.
  apply (proj1 (registered_ids_stay
                  [AddResource "R2" 1; AddResource "R1" 1; UseResource "R9"]
                  (run [AddResource "R1" 2] (initial []))) "R1").
  vm_compute. by eexists.
Defined.

Lemma object_fields_step (c : Command) (w w' : World) :
  core_step c w w' ->
  (forall l r, rstore w !! l = Some r ->
               exists r', rstore w' !! l = Some r'
                          /\ Resource.getId r' = Resource.getId r
                          /\ Resource.getType r' = Resource.getType r)
  /\ (forall l p, pstore w !! l = Some p ->
                  exists p', pstore w' !! l = Some p'
                             /\ Project.getId p' = Project.getId p
                             /\ Project.getName p' = Project.getName p
                             /\ Project.getResources p
                                `prefix_of` Project.getResources p').
Proof.
  intros Hstep.
  destruct Hstep as [Hrm Hrs Hps|id tc type _ Hrm Hrs Hps|id name _ Hrm Hrs Hps
                    |id l0 r0 st _ Hid Hr0 Hst0 Hrm Hrs Hps
                    |id name rl pl r0 p0 _ Hid Hname Hr0 Hp Hrm Hrs Hps];
    rewrite Hrs, Hps; split; intros l x Hx; eauto.
  - exists x. split; [by apply lookup_app_l_Some|done].
  - exists x. split; [by apply lookup_app_l_Some|done].
  - destruct (decide (l = l0)) as [->|Hne].
    + eexists. split; [apply list_lookup_insert_eq; by eapply lookup_lt_Some|].
      simpl. split; congruence.
    + exists x. by rewrite list_lookup_insert_ne.
  - destruct (decide (l = rl)) as [->|Hne].
    + eexists. split; [apply list_lookup_insert_eq; by eapply lookup_lt_Some|].
      simpl. split; congruence.
    + exists x. by rewrite list_lookup_insert_ne.
  - destruct (decide (l = pl)) as [->|Hne].
    + eexists. split; [apply list_lookup_insert_eq; by eapply lookup_lt_Some|].
      simpl. assert (x = p0) as -> by congruence.
      repeat split. by apply prefix_app_r.
    + exists x. by rewrite list_lookup_insert_ne.
Qed.

(** In the store of the model, which releases nothing, an object keeps its
    fields along any sequence of commands. *)
Lemma store_keeps_fields (input : list Command) (w : World) :
  (forall l r, rstore w !! l = Some r ->
               exists r', rstore (run input w) !! l = Some r'
                          /\ Resource.getId r' = Resource.getId r
                          /\ Resource.getType r' = Resource.getType r)
  /\ (forall l p, pstore w !! l = Some p ->
                  exists p', pstore (run input w) !! l = Some p'
                             /\ Project.getId p' = Project.getId p
                             /\ Project.getName p' = Project.getName p
                             /\ Project.getResources p
                                `prefix_of` Project.getResources p').
Proof.
  apply (invariant_run
           (fun w' =>
              (forall l r, rstore w !! l = Some r ->
                 exists r', rstore w' !! l = Some r'
                            /\ Resource.getId r' = Resource.getId r
                            /\ Resource.getType r' = Resource.getType r)
              /\ (forall l p, pstore w !! l = Some p ->
                 exists p', pstore w' !! l = Some p'
                            /\ Project.getId p' = Project.getId p
                            /\ Project.getName p' = Project.getName p
                            /\ Project.getResources p
                               `prefix_of` Project.getResources p'))).
  - intros c w1 w2 Hstep [H1 H2].
    destruct (object_fields_step c w1 w2 Hstep) as [H3 H4]. split.
    + intros l r Hr. destruct (H1 l r Hr) as (r1 & Hr1 & E1 & E2).
      destruct (H3 l r1 Hr1) as (r2 & Hr2 & E3 & E4).
      exists r2. split; [done|]. split; congruence.
    + intros l p Hp. destruct (H2 l p Hp) as (p1 & Hp1 & E1 & E2 & E3).
      destruct (H4 l p1 Hp1) as (p2 & Hp2 & E4 & E5 & E6).
      exists p2. split; [done|]. split; [congruence|]. split; [congruence|].
      by etrans.
  - split; intros l x Hx; exists x; by repeat split.
Qed.

(** X8: no command renames or retypes an object.  Whatever is run, a
    resource object seen before and after has the id and type it had, and a
    project object seen before and after has the id and name it had, its
    list of resources being the old list with entries added at the end.
    (Nothing is said here about the object still being there: one that was
    replaced under its id and that no list or pointer holds is gone.) *)
Theorem object_fields_never_change (input : list Command) (w : World) :
  (forall l r r',
      rstore w !! l = Some r -> rstore (run input w) !! l = Some r' ->
      Resource.getId r' = Resource.getId r
      /\ Resource.getType r' = Resource.getType r)
  /\ (forall l p p',
      pstore w !! l = Some p -> pstore (run input w) !! l = Some p' ->
      Project.getId p' = Project.getId p
      /\ Project.getName p' = Project.getName p
      /\ Project.getResources p `prefix_of` Project.getResources p').
Proof.
  destruct (store_keeps_fields input w) as [Hr Hp]. split.
  - intros l r r' H H'. destruct (Hr l r H) as (r1 & H1 & E).
    rewrite H' in H1. by injection H1 as <-.
  - intros l p p' H H'. destruct (Hp l p H) as (p1 & H1 & E).
    rewrite H' in H1. by injection H1 as <-.
Qed.

Lemma object_fields_never_change_witness :
  Project.getId (Project.mk "P1" "Alpha" [0; 1]) = "P1"
  /\ Project.getName (Project.mk "P1" "Alpha" [0; 1]) = "Alpha"
  /\ [0] `prefix_of` [0; 1].
Proof.
  apply (proj2 (object_fields_never_change
                  [AddResource "R2" 1; AllocateResource "R2" "P1";
                   MaintainResource "R1"]
                  (run [AddProject "P1" "Alpha"; AddResource "R1" 2;
                        AllocateResource "R1" "P1"] (initial [])))
               0 (Project.mk "P1" "Alpha" [0]) (Project.mk "P1" "Alpha" [0; 1]));
    vm_compute; reflexivity.
Defined.

(** ** More invariants of allocation and maintenance *)

Lemma listed_not_Idle_step (c : Command) (w w' : World) :
  core_step c w w' ->
  (forall pl p rl, pstore w !! pl = Some p -> rl ∈ Project.getResources p ->
                   exists r, rstore w !! rl = Some r
                             /\ Resource.getState r <> Idle) ->
  forall pl p rl, pstore w' !! pl = Some p -> rl ∈ Project.getResources p ->
                  exists r, rstore w' !! rl = Some r
                            /\ Resource.getState r <> Idle.
Proof.
  intros Hstep Hinv pl' p' rl' Hp' Hrl'.
  assert (forall p, pstore w !! pl' = Some p -> rl' ∈ Project.getResources p ->
                    exists r, rstore w' !! rl' = Some r
                              /\ Resource.getState r <> Idle) as Hold.
  { intros p Hp Hrl. destruct (Hinv _ _ _ Hp Hrl) as (r & Hr & Hst).
    by eapply not_Idle_step. }
  destruct Hstep as [Hrm Hrs Hps|id tc type _ Hrm Hrs Hps|id name _ Hrm Hrs Hps
                    |id l0 r0 st _ Hid Hr0 Hst0 Hrm Hrs Hps
                    |id name rl pl r0 p0 _ Hid Hname Hr0 Hp Hrm Hrs Hps];
    rewrite Hps in Hp'; eauto.
  - apply lookup_snoc_Some in Hp' as [Hp'|[_ ->]];
      [eauto|by apply elem_of_nil in Hrl'].
  - apply lookup_insert_Some_cases in Hp' as [[-> ->]|[_ Hp']]; [|eauto].
    simpl in Hrl'. apply elem_of_app in Hrl' as [Hrl'|Hrl']; [eauto|].
    apply list_elem_of_singleton in Hrl' as ->. rewrite Hrs.
    eexists. split; [apply list_lookup_insert_eq; by eapply lookup_lt_Some|].
    done.
Qed.

(** X9: in every world reached from an empty manager, every entry of a
    project's list is a resource object that is not idle. *)
Theorem listed_resource_is_not_Idle (log0 : list string)
    (input : list Command) (pl : loc) (p : Project.t) (rl : loc) :
  pstore (run input (initial log0)) !! pl = Some p ->
  rl ∈ Project.getResources p ->
  exists r, rstore (run input (initial log0)) !! rl = Some r
            /\ Resource.getState r <> Idle.
Proof.
  revert pl p rl.
  apply (invariant_run _ listed_not_Idle_step).
  intros pl p rl H. by destruct pl.
Qed.

Lemma listed_resource_is_not_Idle_witness :
  exists r,
    rstore (run [AddProject "P1" "Alpha"; AddResource "R1" 2;
                 AllocateResource "R1" "P1"; MaintainResource "R1";
                 AddResource "R1" 2] (initial [])) !! 0 = Some r
    /\ Resource.getState r <> Idle.
Proof.
  apply (listed_resource_is_not_Idle []
           [AddProject "P1" "Alpha"; AddResource "R1" 2;
            AllocateResource "R1" "P1"; MaintainResource "R1";
            AddResource "R1" 2] 0 (Project.mk "P1" "Alpha" [0]) 0).
  - vm_compute; reflexivity.
  - apply list_elem_of_here.
Defined.

(** X10: in every world reached from an empty manager, a resource object
    that is under maintenance is of type ["equipment"]: no sequence of
    commands puts a worker under maintenance. *)
Theorem only_equipment_under_maintenance (log0 : list string)
    (input : list Command) (l : loc) (r : Resource.t) :
  rstore (run input (initial log0)) !! l = Some r ->
  Resource.getState r = UnderMaintenance ->
  Resource.getType r = "equipment".
Proof.
  revert l r. induction input as [|c input IH] using rev_ind.
  - intros l r H. by destruct l.
  - intros l r' H Hst. rewrite run_snoc in H.
    apply exec_rstore_cases in H
      as [H|[(id & tc & _ & _ & ->)|[(id & r & _ & _ & Hr & ->)
         |[(id & r & _ & _ & Hr & Ht & ->)
          |(id & name & r & pl & _ & _ & _ & Hr & _ & ->)]]]];
      simpl in *; eauto; done.
Qed.

Lemma only_equipment_under_maintenance_witness :
  Resource.getType (Resource.mk "R1" "equipment" UnderMaintenance None)
  = "equipment".
Proof.
  apply (only_equipment_under_maintenance []
           [AddResource "R2" 1; AddResource "R1" 5; MaintainResource "R2";
            MaintainResource "R1"] 1).
  - vm_compute; reflexivity.
  - reflexivity.
Defined.

Lemma backref_listed_step (c : Command) (w w' : World) :
  core_step c w w' ->
  (forall l r q, rstore w !! l = Some r ->
                 Resource.getAllocatedProject r = Some q ->
                 exists p, pstore w !! q = Some p
                           /\ l ∈ Project.getResources p) ->
  forall l r q, rstore w' !! l = Some r ->
                Resource.getAllocatedProject r = Some q ->
                exists p, pstore w' !! q = Some p
                          /\ l ∈ Project.getResources p.
Proof.
  intros Hstep Hinv l r q Hr Hq.
  destruct Hstep as [Hrm Hrs Hps|id tc type _ Hrm Hrs Hps|id name _ Hrm Hrs Hps
                    |id l0 r0 st _ Hid Hr0 Hst0 Hrm Hrs Hps
                    |id name rl pl r0 p0 _ Hid Hname Hr0 Hp Hrm Hrs Hps];
    rewrite Hrs in Hr; rewrite Hps.
  - eauto.
  - apply lookup_snoc_Some in Hr as [Hr|[_ ->]]; [eauto|done].
  - destruct (Hinv _ _ _ Hr Hq) as (p & Hp & Hl).
    exists p. split; [by apply lookup_app_l_Some|done].
  - apply lookup_insert_Some_cases in Hr as [[-> ->]|[_ Hr]]; eauto.
  - pose proof (lookup_lt_Some _ _ _ Hp) as Hlt.
    apply lookup_insert_Some_cases in Hr as [[-> ->]|[Hne Hr]].
    + simpl in Hq. injection Hq as <-.
      eexists. split; [by apply list_lookup_insert_eq|].
      simpl. apply elem_of_app. right. apply list_elem_of_here.
    + destruct (Hinv _ _ _ Hr Hq) as (p & Hp' & Hl).
      destruct (decide (q = pl)) as [->|Hq'].
      * eexists. split; [by apply list_lookup_insert_eq|].
        simpl. apply elem_of_app. left. congruence.
      * exists p. by rewrite list_lookup_insert_ne.
Qed.

(** X11: in every world reached from an empty manager, a resource object
    whose [allocatedProject] is not null is in the list of the project it
    points to. *)
Theorem allocated_resource_is_listed (log0 : list string)
    (input : list Command) (l : loc) (r : Resource.t) (q : loc) :
  rstore (run input (initial log0)) !! l = Some r ->
  Resource.getAllocatedProject r = Some q ->
  exists p, pstore (run input (initial log0)) !! q = Some p
            /\ l ∈ Project.getResources p.
Proof.
  revert l r q.
  apply (invariant_run _ backref_listed_step).
  intros l r q H. by destruct l.
Qed.

Lemma allocated_resource_is_listed_witness :
  exists p,
    pstore (run [AddProject "P1" "Alpha"; AddProject "P2" "Beta";
                 AddResource "R1" 2; AllocateResource "R1" "P1";
                 AllocateResource "R1" "P2"] (initial [])) !! 1 = Some p
    /\ 0 ∈ Project.getResources p.
Proof.
  apply (allocated_resource_is_listed []
           [AddProject "P1" "Alpha"; AddProject "P2" "Beta";
            AddResource "R1" 2; AllocateResource "R1" "P1";
            AllocateResource "R1" "P2"]
           0 (Resource.mk "R1" "equipment" InUse (Some 1)) 1).
  - vm_compute; reflexivity.
  - reflexivity.
Defined.

(** ** Commands one after the other *)

Lemma exec_allocate (w : World) (id name : string) (rl pl : loc)
    (r : Resource.t) (p : Project.t) :
  resources (rm w) !! id = Some rl ->
  projects (rm w) !! name = Some pl ->
  rstore w !! rl = Some r ->
  pstore w !! pl = Some p ->
  exec (AllocateResource id name) w =
  mkWorld (rm w)
    (<[rl := Resource.allocateToProject pl (Resource.setState InUse r)]>
       (rstore w))
    (<[pl := Project.push_back rl p]> (pstore w))
    (logFile w ++ ["Resource " +:+ id +:+ " allocated to project "
                   +:+ Project.getName p])
    (((cout w +:+ "Enter Resource ID to allocate: ")
      +:+ "Enter Project ID to allocate to: ")
     +:+ "Resource " +:+ id +:+ " allocated to project " +:+ name +:+ "."
     +:+ nl)
    (cerr w).
Proof.
  intros Hrl Hpl Hr Hp. unfold exec. unfold_ops. simpl.
  rewrite Hpl. simpl. rewrite Hrl. simpl. rewrite Hr. simpl.
  rewrite Hp. simpl.
  rewrite list_lookup_insert_eq by (by eapply lookup_lt_Some). simpl.
  rewrite list_lookup_insert_eq by (by eapply lookup_lt_Some). simpl.
  by rewrite list_insert_insert_eq.
Qed.

(** X12: allocation is not idempotent, in the strongest sense: allocating
    the same registered resource to the same registered project [n] times
    in a row adds it [n] times at the end of the project's list and appends
    [n] times the record ["Resource {id} allocated to project {name}"] to
    the log. *)
Theorem repeated_allocation (n : nat) (w : World) (id name : string)
    (rl pl : loc) (r : Resource.t) (p : Project.t) :
  resources (rm w) !! id = Some rl ->
  projects (rm w) !! name = Some pl ->
  rstore w !! rl = Some r ->
  pstore w !! pl = Some p ->
  exists p',
    pstore (run (replicate n (AllocateResource id name)) w) !! pl = Some p'
    /\ Project.getResources p' = Project.getResources p ++ replicate n rl
    /\ logFile (run (replicate n (AllocateResource id name)) w)
       = logFile w
         ++ replicate n ("Resource " +:+ id +:+ " allocated to project "
                         +:+ Project.getName p).
Proof.
  revert w r p. induction n as [|n IH]; intros w r p Hrl Hpl Hr Hp.
  - exists p. simpl. by rewrite !app_nil_r.
  - change (replicate (S n) (AllocateResource id name))
      with (AllocateResource id name :: replicate n (AllocateResource id name)).
    rewrite run_cons.
    rewrite (exec_allocate w id name rl pl r p) by done.
    pose proof (lookup_lt_Some _ _ _ Hr) as Hlr.
    pose proof (lookup_lt_Some _ _ _ Hp) as Hlp.
    set (w1 := mkWorld _ _ _ _ _ _).
    destruct (IH w1 (Resource.allocateToProject pl
                       (Resource.setState InUse r))
                 (Project.push_back rl p))
      as (p' & H1 & H2 & H3); subst w1; simpl.
    + exact Hrl.
    + exact Hpl.
    + by apply list_lookup_insert_eq.
    + by apply list_lookup_insert_eq.
    + exists p'. split; [exact H1|]. split.
      * rewrite H2. simpl. by rewrite <- app_assoc.
      * rewrite H3. simpl. by rewrite <- app_assoc.
Qed.

Lemma repeated_allocation_witness :
  exists p',
    pstore (run (replicate 3 (AllocateResource "R1" "P1"))
                (run [AddProject "P1" "Alpha"; AddResource "R1" 1]
                     (initial []))) !! 0 = Some p'
    /\ Project.getResources p' = [0; 0; 0]
    /\ logFile (run (replicate 3 (AllocateResource "R1" "P1"))
                    (run [AddProject "P1" "Alpha"; AddResource "R1" 1]
                         (initial [])))
       = ["Project P1 named Alpha added."; "Resource R1 of type worker added.";
          "Resource R1 allocated to project Alpha";
          "Resource R1 allocated to project Alpha";
          "Resource R1 allocated to project Alpha"].
Proof.
  destruct (repeated_allocation 3
              (run [AddProject "P1" "Alpha"; AddResource "R1" 1] (initial []))
              "R1" "P1" 0 0 (Resource.mk "R1" "worker" Idle None)
              (Project.mk "P1" "Alpha" []))
    as (p' & H1 & H2 & H3); try (vm_compute; reflexivity).
  exists p'. split; [exact H1|]. split; [exact H2|].
  rewrite H3. vm_compute; reflexivity.
Defined.

(** X13: allocating registered equipment to a registered project and then
    maintaining it is what makes the display name the project: the line
    written is ["Resource {id} is under maintenance and allocated to project
    {name}."], with the name (not the id) of the project. *)
Theorem allocate_maintain_display (w : World) (id name : string)
    (rl pl : loc) (r : Resource.t) (p : Project.t) :
  resources (rm w) !! id = Some rl ->
  projects (rm w) !! name = Some pl ->
  rstore w !! rl = Some r ->
  pstore w !! pl = Some p ->
  Resource.getType r = "equipment" ->
  cout (run [AllocateResource id name; MaintainResource id;
             DisplayResourceState id] w)
  = cout (run [AllocateResource id name; MaintainResource id] w)
    +:+ "Enter Resource ID to display state: "
    +:+ "Resource " +:+ id
    +:+ " is under maintenance and allocated to project "
    +:+ Project.getName p +:+ "." +:+ nl.
Proof.
  intros Hrl Hpl Hr Hp Ht.
  pose proof (lookup_lt_Some _ _ _ Hr) as Hlr.
  pose proof (lookup_lt_Some _ _ _ Hp) as Hlp.
  unfold run. simpl.
  rewrite (exec_allocate w id name rl pl r p) by done.
  unfold exec. unfold_ops. simpl. rewrite Hrl. simpl.
  rewrite list_lookup_insert_eq by done. simpl. rewrite Ht. simpl.
  rewrite list_lookup_insert_eq by done. simpl. rewrite Hrl. simpl.
  rewrite list_lookup_insert_eq by (by rewrite length_insert). simpl.
  rewrite list_lookup_insert_eq by done. simpl.
  by rewrite !string_app_assoc.
Qed.

Lemma allocate_maintain_display_witness :
  cout (run [AllocateResource "R1" "P1"; MaintainResource "R1";
             DisplayResourceState "R1"]
            (run [AddProject "P1" "Alpha Works"; AddResource "R1" 2]
                 (initial [])))
  = cout (run [AllocateResource "R1" "P1"; MaintainResource "R1"]
              (run [AddProject "P1" "Alpha Works"; AddResource "R1" 2]
                   (initial [])))
    +:+ "Enter Resource ID to display state: "
    +:+ "Resource R1 is under maintenance and allocated to project Alpha Works."
    +:+ nl.
Proof.
  rewrite (allocate_maintain_display
             (run [AddProject "P1" "Alpha Works"; AddResource "R1" 2]
                  (initial []))
             "R1" "P1" 0 0 (Resource.mk "R1" "equipment" Idle None)
             (Project.mk "P1" "Alpha Works" []));
    vm_compute; reflexivity.
Defined.

(** X14: the type choice read for a new resource decides whether it can be
    maintained: with choice 1 it is a worker and [Maintain Resource] right
    after leaves it idle; with any other number it is equipment and goes
    under maintenance. *)
Theorem type_choice_decides_maintenance (w : World) (id : string)
    (typeChoice : Z) :
  stateOf (run [AddResource id typeChoice; MaintainResource id] w) id
  = Some (if (typeChoice =? 1)%Z then Idle else UnderMaintenance).
Proof.
  unfold run, exec. simpl. unfold_ops. simpl.
  rewrite lookup_insert_eq. simpl.
  rewrite lookup_app_r, Nat.sub_diag by done. simpl.
  destruct (typeChoice =? 1)%Z; simpl.
  - unfold stateOf, resourceAt. simpl. rewrite lookup_insert_eq. simpl.
    by rewrite lookup_app_r, Nat.sub_diag.
  - rewrite lookup_app_r, Nat.sub_diag by done. simpl.
    unfold stateOf, resourceAt. simpl. rewrite lookup_insert_eq. simpl.
    rewrite list_lookup_insert_eq by (rewrite length_app; simpl; lia).
    done.
Qed.

(** ** Objects the manager no longer leads to *)

Lemma injective_step (c : Command) (w w' : World) :
  core_step c w w' ->
  valid_pointers w
  /\ (forall id1 id2 l, resources (rm w) !! id1 = Some l ->
                        resources (rm w) !! id2 = Some l -> id1 = id2)
  /\ (forall id1 id2 l, projects (rm w) !! id1 = Some l ->
                        projects (rm w) !! id2 = Some l -> id1 = id2) ->
  valid_pointers w'
  /\ (forall id1 id2 l, resources (rm w') !! id1 = Some l ->
                        resources (rm w') !! id2 = Some l -> id1 = id2)
  /\ (forall id1 id2 l, projects (rm w') !! id1 = Some l ->
                        projects (rm w') !! id2 = Some l -> id1 = id2).
Proof.
  intros Hstep (Hvalid & Hres & Hproj).
  split; [by eapply valid_pointers_step|].
  destruct Hvalid as (Hvr & Hvp & _).
  destruct Hstep as [Hrm _ _|id tc type _ Hrm _ _|id name _ Hrm _ _
                    |id l0 r0 st _ _ _ _ Hrm _ _
                    |id name rl pl r0 p0 _ _ _ _ _ Hrm _ _];
    rewrite Hrm; simpl; try done.
  - split; [|done]. intros id1 id2 l H1 H2.
    apply lookup_insert_Some in H1 as [[<- <-]|[Hne1 H1]];
      apply lookup_insert_Some in H2 as [[<- E]|[Hne2 H2]]; try done.
    + apply Hvr in H2. lia.
    + apply Hvr in H1. lia.
    + eauto.
  - split; [done|]. intros id1 id2 l H1 H2.
    apply lookup_insert_Some in H1 as [[<- <-]|[Hne1 H1]];
      apply lookup_insert_Some in H2 as [[<- E]|[Hne2 H2]]; try done.
    + apply Hvp in H2. lia.
    + apply Hvp in H1. lia.
    + eauto.
Qed.

Lemma injective_run (log0 : list string) (input : list Command) :
  valid_pointers (run input (initial log0))
  /\ (forall id1 id2 l,
         resources (rm (run input (initial log0))) !! id1 = Some l ->
         resources (rm (run input (initial log0))) !! id2 = Some l ->
         id1 = id2)
  /\ (forall id1 id2 l,
         projects (rm (run input (initial log0))) !! id1 = Some l ->
         projects (rm (run input (initial log0))) !! id2 = Some l ->
         id1 = id2).
Proof.
  apply (invariant_run _ injective_step).
  split; [apply valid_pointers_initial|]. simpl.
  split; intros id1 id2 l H; by rewrite lookup_empty in H.
Qed.

Lemma unreached_resource_step (c : Command) (w w' : World) (l : loc)
    (r : Resource.t) :
  core_step c w w' ->
  rstore w !! l = Some r
  /\ (forall id, resources (rm w) !! id <> Some l) ->
  rstore w' !! l = Some r
  /\ (forall id, resources (rm w') !! id <> Some l).
Proof.
  intros Hstep [Hr Hno].
  pose proof (lookup_lt_Some _ _ _ Hr) as Hlt.
  destruct Hstep as [Hrm Hrs Hps|id tc type _ Hrm Hrs Hps|id name _ Hrm Hrs Hps
                    |id l0 r0 st _ Hid Hr0 Hst0 Hrm Hrs Hps
                    |id name rl pl r0 p0 _ Hid Hname Hr0 Hp Hrm Hrs Hps];
    rewrite Hrm, Hrs; simpl.
  - done.
  - split; [by apply lookup_app_l_Some|]. intros id' H.
    apply lookup_insert_Some in H as [[_ E]|[_ H]]; [lia|by eapply Hno].
  - done.
  - split; [|done]. rewrite list_lookup_insert_ne; [done|].
    intros <-. by eapply Hno.
  - split; [|done]. rewrite list_lookup_insert_ne; [done|].
    intros <-. by eapply Hno.
Qed.

Lemma unreached_project_step (c : Command) (w w' : World) (l : loc)
    (p : Project.t) :
  core_step c w w' ->
  pstore w !! l = Some p
  /\ (forall id, projects (rm w) !! id <> Some l) ->
  pstore w' !! l = Some p
  /\ (forall id, projects (rm w') !! id <> Some l).
Proof.
  intros Hstep [Hp Hno].
  pose proof (lookup_lt_Some _ _ _ Hp) as Hlt.
  destruct Hstep as [Hrm Hrs Hps|id tc type _ Hrm Hrs Hps|id name _ Hrm Hrs Hps
                    |id l0 r0 st _ Hid Hr0 Hst0 Hrm Hrs Hps
                    |id name rl pl r0 p0 _ Hid Hname Hr0 Hp0 Hrm Hrs Hps];
    rewrite Hrm, Hps; simpl.
  - done.
  - done.
  - split; [by apply lookup_app_l_Some|]. intros id' H.
    apply lookup_insert_Some in H as [[_ E]|[_ H]]; [lia|by eapply Hno].
  - done.
  - split; [|done]. rewrite list_lookup_insert_ne; [done|].
    intros <-. by eapply Hno.
Qed.

(** X15: an object replaced by adding its id again never changes
    afterwards.  If, after the commands [pre], the id leads to a resource
    object, then after adding a resource under that id again and any further
    commands that object is still in the store exactly as it was (state and
    project pointer included); the same holds for a project object, whose
    list stays as it was. *)
Theorem replaced_object_is_frozen (log0 : list string)
    (pre post : list Command) (id : string) (l : loc) :
  (forall tc r,
      resources (rm (run pre (initial log0))) !! id = Some l ->
      rstore (run pre (initial log0)) !! l = Some r ->
      rstore (run (pre ++ AddResource id tc :: post) (initial log0)) !! l
      = Some r)
  /\ (forall name p,
      projects (rm (run pre (initial log0))) !! id = Some l ->
      pstore (run pre (initial log0)) !! l = Some p ->
      pstore (run (pre ++ AddProject id name :: post) (initial log0)) !! l
      = Some p).
Proof.
  destruct (injective_run log0 pre) as (_ & Hres & Hproj).
  split.
  - intros tc r Hl Hr. pose proof (lookup_lt_Some _ _ _ Hr) as Hlt.
    unfold run. rewrite foldl_app. fold (run pre (initial log0)).
    change (foldl _ ?w (?c :: post)) with (run post (exec c w)).
    apply (invariant_run _ (fun c w w' H => unreached_resource_step c w w' l r H)).
    split; [by apply lookup_app_l_Some|]. simpl. intros id' H.
    apply lookup_insert_Some in H as [[_ E]|[Hne H]]; [lia|].
    apply Hne. by eapply Hres.
  - intros name p Hl Hp. pose proof (lookup_lt_Some _ _ _ Hp) as Hlt.
    unfold run. rewrite foldl_app. fold (run pre (initial log0)).
    change (foldl _ ?w (?c :: post)) with (run post (exec c w)).
    apply (invariant_run _ (fun c w w' H => unreached_project_step c w w' l p H)).
    split; [by apply lookup_app_l_Some|]. simpl. intros id' H.
    apply lookup_insert_Some in H as [[_ E]|[Hne H]]; [lia|].
    apply Hne. by eapply Hproj.
Qed.

Lemma replaced_object_is_frozen_witness :
  rstore (run ([AddProject "P1" "Alpha"; AddResource "R1" 2;
                AllocateResource "R1" "P1"]
               ++ AddResource "R1" 2
               :: [MaintainResource "R1"; AllocateResource "R1" "P1"])
              (initial [])) !! 0
  = Some (Resource.mk "R1" "equipment" InUse (Some 0)).
Proof.
  apply (proj1 (replaced_object_is_frozen []
                  [AddProject "P1" "Alpha"; AddResource "R1" 2;
                   AllocateResource "R1" "P1"]
                  [MaintainResource "R1"; AllocateResource "R1" "P1"]
                  "R1" 0)); vm_compute; reflexivity.
Defined.

(** ** How [main] ends *)



